(** * VehicleNetworkDataTypes.h: ownership of vehicle property values

    A shallow embedding of [libvehiclenetwork/include/VehicleNetworkDataTypes.h]
    and the properties of its copy, release and container-destruction code.

    The C++ heap is an explicit store.  Every function of the header becomes
    a computation in a small monad over that store with three outcomes: it
    returns, the process is terminated by a failed [assert], or the behaviour
    is undefined (dereferencing or deleting something that is not a live
    object of the expected kind). *)

From Stdlib Require Import ZArith Lia Strings.Byte.
From stdpp Require Import gmap list fin_maps.

Open Scope Z_scope.

(** ** Platform declarations *)

(** Pointers are addresses; [NULL] is address zero. *)
Definition NULL : Z := 0.

(** [status_t] of <utils/Errors.h>; the header only names these two codes. *)
Inductive status_t : Type :=
| NO_ERROR
| NO_MEMORY.

Definition status_eqb (a b : status_t) : bool :=
  match a, b with
  | NO_ERROR, NO_ERROR | NO_MEMORY, NO_MEMORY => true
  | _, _ => false
  end.

(** Modelled from the spec: [vehicle_str_t] of <hardware/vehicle.h>, which is
    not part of this repository's sources: an owned buffer given by a pointer
    and a length ([int32_t]). *)
Record vehicle_str_t : Type := {
  data : Z;
  len : Z
}.

(** Modelled from the spec: the union [vehicle_value_t] of <hardware/vehicle.h>.
    The only member this header reads or writes is [str_value]; the scalar
    members share its bytes, so for a scalar record [str_value] is whatever
    those bytes spell when read as a pointer and a length. *)
Record vehicle_value_t : Type := {
  str_value : vehicle_str_t
}.

(** Modelled from the spec: [vehicle_prop_value_t] of <hardware/vehicle.h>:
    property identifier, type tag, timestamp and zone metadata, payload. *)
Record vehicle_prop_value_t : Type := {
  prop : Z;
  value_type : Z;
  timestamp : Z;
  zone : Z;
  value : vehicle_value_t
}.

(** Modelled from the spec: [vehicle_prop_config_t] of <hardware/vehicle.h>:
    property identifier, type, permission flags and an optional owned
    configuration string. *)
Record vehicle_prop_config_t : Type := {
  config_prop : Z;
  config_value_type : Z;
  config_access : Z;
  config_string : vehicle_str_t
}.

(** What the build fixes: the two type tags of <hardware/vehicle.h> that the
    header switches on, and whether the macro [ASSERT_ON_NO_MEMORY] is
    defined (line 38 of the header defines it). *)
Class Build : Type := {
  VEHICLE_VALUE_TYPE_STRING : Z;
  VEHICLE_VALUE_TYPE_BYTES : Z;
  ASSERT_ON_NO_MEMORY : bool
}.

(** The header as it is checked in, with the tag values of the vehicle HAL. *)
Definition shipped : Build := {|
  VEHICLE_VALUE_TYPE_STRING := 1;
  VEHICLE_VALUE_TYPE_BYTES := 2;
  ASSERT_ON_NO_MEMORY := true
|}.

(** The same header with line 38 removed. *)
Definition propagating : Build := {|
  VEHICLE_VALUE_TYPE_STRING := 1;
  VEHICLE_VALUE_TYPE_BYTES := 2;
  ASSERT_ON_NO_MEMORY := false
|}.

(** [case VEHICLE_VALUE_TYPE_BYTES: case VEHICLE_VALUE_TYPE_STRING:] *)
Definition is_buffer_type `{Build} (t : Z) : bool :=
  (t =? VEHICLE_VALUE_TYPE_BYTES) || (t =? VEHICLE_VALUE_TYPE_STRING).

Definition buf (v : vehicle_prop_value_t) : vehicle_str_t := str_value (value v).

(** [v.value.str_value.data = p] *)
Definition set_data (v : vehicle_prop_value_t) (p : Z) : vehicle_prop_value_t :=
  {| prop := prop v; value_type := value_type v; timestamp := timestamp v;
     zone := zone v;
     value := {| str_value := {| data := p; len := len (buf v) |} |} |}.

(** [v.value.str_value.len = n] *)
Definition set_len (v : vehicle_prop_value_t) (n : Z) : vehicle_prop_value_t :=
  {| prop := prop v; value_type := value_type v; timestamp := timestamp v;
     zone := zone v;
     value := {| str_value := {| data := data (buf v); len := n |} |} |}.

(** The all-zero record left by [memset(&value, 0, sizeof(value))] and by the
    value-initialisation [new vehicle_prop_value_t()]. *)
Definition zero_value : vehicle_prop_value_t :=
  {| prop := 0; value_type := 0; timestamp := 0; zone := 0;
     value := {| str_value := {| data := NULL; len := 0 |} |} |}.

(** ** The store *)

Inductive block : Type :=
| Bytes (bs : list byte)                 (* uint8_t[n] *)
| PropValue (v : vehicle_prop_value_t)
| PropConfig (c : vehicle_prop_config_t)
| ValueList (l : list Z).                (* List<vehicle_prop_value_t*> *)

Inductive event : Type :=
| EvNew (p : Z)
| EvDelete (p : Z).

(** [objs] are the live objects, [oom] decides the coming allocation requests
    ([true]: the request fails; past the end every request succeeds), [trace]
    logs every successful [new] and every [delete] of a live object. *)
Record mem : Type := {
  objs : gmap Z block;
  oom : list bool;
  trace : list event
}.

Inductive outcome (A : Type) : Type :=
| Done (a : A) (m : mem)
| Abort
| Undefined.

Arguments Done {A} a m.
Arguments Abort {A}.
Arguments Undefined {A}.

Definition M (A : Type) : Type := mem -> outcome A.

Definition ret {A} (a : A) : M A := fun m => Done a m.

Definition bind {A B} (c : M A) (k : A -> M B) : M B :=
  fun m => match c m with
           | Done a m' => k a m'
           | Abort => Abort
           | Undefined => Undefined
           end.

Notation "x <- c ; k" := (bind c (fun x => k))
  (at level 100, c at next level, right associativity, only parsing).
Notation "c ;; k" := (bind c (fun _ => k))
  (at level 100, right associativity, only parsing).

Definition abort {A} : M A := fun _ => Abort.
Definition undefined {A} : M A := fun _ => Undefined.

Definition set_objs (o : gmap Z block) (m : mem) : mem :=
  {| objs := o; oom := oom m; trace := trace m |}.

(** [*p] *)
Definition deref (p : Z) : M block :=
  fun m => if p =? NULL then Undefined
           else match objs m !! p with
                | Some b => Done b m
                | None => Undefined
                end.

(** [*p = b], for a live [p] *)
Definition assign (p : Z) (b : block) : M unit :=
  _ <- deref p ; fun m => Done tt (set_objs (<[p := b]> (objs m)) m).

Definition load_value (p : Z) : M vehicle_prop_value_t :=
  b <- deref p ; match b with PropValue v => ret v | _ => undefined end.

Definition store_value (p : Z) (v : vehicle_prop_value_t) : M unit :=
  load_value p ;; assign p (PropValue v).

Definition load_config (p : Z) : M vehicle_prop_config_t :=
  b <- deref p ; match b with PropConfig c => ret c | _ => undefined end.

Definition load_bytes (p : Z) : M (list byte) :=
  b <- deref p ; match b with Bytes bs => ret bs | _ => undefined end.

Definition load_list (p : Z) : M (list Z) :=
  b <- deref p ; match b with ValueList l => ret l | _ => undefined end.

(** An address that is neither [NULL] nor that of a live object. *)
Definition fresh_addr (o : gmap Z block) : Z := fresh ({[NULL]} ∪ dom o).

(** [new]: the header tests the result against [NULL], so a failed request
    yields [NULL]; a successful one yields the address of no live object. *)
Definition new (b : block) : M Z :=
  fun m => if nth 0 (oom m) false
           then Done NULL {| objs := objs m; oom := tail (oom m); trace := trace m |}
           else let p := fresh_addr (objs m) in
                Done p {| objs := <[p := b]> (objs m); oom := tail (oom m);
                          trace := trace m ++ [EvNew p] |}.

(** [delete p] and [delete[] p]: nothing for [NULL], undefined unless [p] is a
    live object of the kind the expression's type says. *)
Definition delete_kind (kind : block -> bool) (p : Z) : M unit :=
  fun m => if p =? NULL then Done tt m
           else match objs m !! p with
                | Some b => if kind b
                            then Done tt {| objs := delete p (objs m); oom := oom m;
                                            trace := trace m ++ [EvDelete p] |}
                            else Undefined
                | None => Undefined
                end.

Definition is_bytes (b : block) : bool := match b with Bytes _ => true | _ => false end.
Definition is_value (b : block) : bool := match b with PropValue _ => true | _ => false end.
Definition is_config (b : block) : bool := match b with PropConfig _ => true | _ => false end.
Definition is_list (b : block) : bool := match b with ValueList _ => true | _ => false end.

Definition delete_array : Z -> M unit := delete_kind is_bytes.
Definition delete_value : Z -> M unit := delete_kind is_value.
Definition delete_config : Z -> M unit := delete_kind is_config.
Definition delete_list : Z -> M unit := delete_kind is_list.

(** [memcpy(dst, src, n)] between two byte arrays. *)
Definition memcpy_bytes (dst src : Z) (n : nat) : M unit :=
  sb <- load_bytes src ;
  db <- load_bytes dst ;
  if ((n <=? length sb) && (n <=? length db))%nat
  then assign dst (Bytes (take n sb ++ drop n db))
  else undefined.

(** [p[i] = b], what a client does to mutate a buffer it holds. *)
Definition write_byte (p : Z) (i : nat) (b : byte) : M unit :=
  bs <- load_bytes p ;
  if (i <? length bs)%nat then assign p (Bytes (<[i := b]> bs)) else undefined.

(** Lines 38-43: with [ASSERT_ON_NO_MEMORY] the macro is [assert((ptr) != NULL)]
    and drops [action]; without it, [if ((ptr) == NULL) { action; }].  Every
    [action] in the header is a [return], so it replaces the rest of the
    function.  The [assert] is an enabled one: it terminates the process, as
    the comment of lines 32-37 says the macro is for. *)
Definition ASSERT_OR_HANDLE_NO_MEMORY `{Build} {A} (p : Z) (action rest : M A) : M A :=
  if ASSERT_ON_NO_MEMORY
  then (if p =? NULL then abort else rest)
  else (if p =? NULL then action else rest).

(** ** The header's classes *)

Module VehiclePropertiesUtil.

(** Lines 61-65.  There is no test of [config] itself. *)
Definition deleteMembers (config : Z) : M unit :=
  c <- load_config config ;
  if negb (data (config_string c) =? NULL) && (0 <? len (config_string c))
  then delete_array (data (config_string c))
  else ret tt.

End VehiclePropertiesUtil.

Module VehiclePropertiesHolder.

(** [mList] is a member held by value: its nodes are not objects of the
    store, and the language destroys it (not what its entries point to)
    after the destructor's body. *)
Record t : Type := {
  mList : list Z;
  mDeleteConfigsInDestructor : bool
}.

Definition ctor (deleteConfigsInDestructor : bool) : t :=
  {| mList := []; mDeleteConfigsInDestructor := deleteConfigsInDestructor |}.

Definition getList (this : t) : list Z := mList this.

(** [getList().push_back(e)] *)
Definition push_back (e : Z) (this : t) : t :=
  {| mList := mList this ++ [e];
     mDeleteConfigsInDestructor := mDeleteConfigsInDestructor this |}.

(** The body of the [for] loop of lines 83-87, over the entries in order. *)
Fixpoint delete_each (l : list Z) : M unit :=
  match l with
  | [] => ret tt
  | e :: rest =>
      VehiclePropertiesUtil.deleteMembers e ;;
      delete_config e ;;
      delete_each rest
  end.

(** Lines 79-89; the result is [mList] as the body leaves it. *)
Definition dtor (this : t) : M (list Z) :=
  if negb (mDeleteConfigsInDestructor this)
  then ret (mList this)
  else delete_each (mList this) ;; ret [].

End VehiclePropertiesHolder.

Module VehiclePropValueUtil.

(** Lines 110-120. *)
Definition deleteMembers `{Build} (v : Z) : M unit :=
  if v =? NULL then ret tt
  else
    r <- load_value v ;
    if is_buffer_type (value_type r)
    then delete_array (data (buf r))
    else ret tt.

(** Lines 122-142.  [src] is a [const&] that is read only: it is taken by
    value, which assumes it is not the object [*dest] itself. *)
Definition copyVehicleProp `{Build} (dest : Z) (src : vehicle_prop_value_t)
    (deleteOldData : bool) : M status_t :=
  d <- load_value dest ;
  (if deleteOldData && negb (data (buf d) =? NULL) && (0 <? len (buf d))
   then delete_array (data (buf d))
   else ret tt) ;;
  store_value dest src ;;
  if is_buffer_type (value_type src)
  then
    d <- load_value dest ;
    if 0 <? len (buf d)
    then
      p <- new (Bytes (replicate (Z.to_nat (len (buf d))) x00)) ;
      store_value dest (set_data d p) ;;
      ASSERT_OR_HANDLE_NO_MEMORY p (ret NO_MEMORY)
        (memcpy_bytes p (data (buf src)) (Z.to_nat (len (buf d))) ;;
         ret NO_ERROR)
    else
      store_value dest (set_data d NULL) ;;
      ret NO_ERROR
  else ret NO_ERROR.

(** What [allocVehicleProp] hands to its caller.  Its declared result is a
    pointer, but the action given to the macro on line 149 is
    [return NO_MEMORY], a status code: the two are kept apart. *)
Inductive alloc_result : Type :=
| RetPtr (p : Z)
| RetStatus (s : status_t).

(** Lines 147-155.  [copy] is a [unique_ptr]: every return but
    [copy.release()] deletes the record it holds. *)
Definition allocVehicleProp `{Build} (v : vehicle_prop_value_t) : M alloc_result :=
  copy <- new (PropValue zero_value) ;
  ASSERT_OR_HANDLE_NO_MEMORY copy
    (delete_value copy ;; ret (RetStatus NO_MEMORY))
    (r <- copyVehicleProp copy v false ;
     if negb (status_eqb r NO_ERROR)
     then delete_value copy ;; ret (RetPtr NULL)
     else ret (RetPtr copy)).

End VehiclePropValueUtil.

Module ScopedVehiclePropValue.

(** The object is its member [value]; [this] is the address of both. *)

(** Lines 172-174. *)
Definition ctor (this : Z) : M unit := store_value this zero_value.

(** Lines 176-178. *)
Definition dtor `{Build} (this : Z) : M unit :=
  VehiclePropValueUtil.deleteMembers this.

(** A block that declares [ScopedVehiclePropValue value;] and runs [body]:
    whatever [body] returns, by whichever [return] statement, the
    destructor runs as the block is left. *)
Definition scope `{Build} {A} (this : Z) (body : Z -> M A) : M A :=
  ctor this ;;
  r <- body this ;
  dtor this ;;
  ret r.

End ScopedVehiclePropValue.

Module VehiclePropValueListHolder.

Record t : Type := {
  mList : Z;
  mDeleteInDestructor : bool
}.

(** Lines 187-189. *)
Definition ctor (list : Z) (deleteInDestructor : bool) : t :=
  {| mList := list; mDeleteInDestructor := deleteInDestructor |}.

(** Lines 191-193. *)
Definition getList (this : t) : M (list Z) := load_list (mList this).

(** The body of the [for] loop of lines 197-200, over the entries in order. *)
Fixpoint delete_each `{Build} (l : list Z) : M unit :=
  match l with
  | [] => ret tt
  | pv :: rest =>
      VehiclePropValueUtil.deleteMembers pv ;;
      delete_value pv ;;
      delete_each rest
  end.

(** Lines 195-203. *)
Definition dtor `{Build} (this : t) : M unit :=
  if mDeleteInDestructor this && negb (mList this =? NULL)
  then
    l <- load_list (mList this) ;
    delete_each l ;;
    delete_list (mList this)
  else ret tt.

End VehiclePropValueListHolder.

(** ** Vocabulary of the statements *)

(** [p] is the address of a live byte array holding [bs]. *)
Definition live_bytes (o : gmap Z block) (p : Z) (bs : list byte) : Prop :=
  p ≠ NULL ∧ o !! p = Some (Bytes bs).

(** [p] is the address of a live property value record holding [v]. *)
Definition live_value (o : gmap Z block) (p : Z) (v : vehicle_prop_value_t) : Prop :=
  p ≠ NULL ∧ o !! p = Some (PropValue v).

(** [p] is the address of a live property configuration record holding [c]. *)
Definition live_config (o : gmap Z block) (p : Z) (c : vehicle_prop_config_t) : Prop :=
  p ≠ NULL ∧ o !! p = Some (PropConfig c).

(** The record [v] owns a buffer: its tag is a buffer kind and its pointer
    is the address of a live byte array. *)
Definition owns_buffer `{Build} (o : gmap Z block) (v : vehicle_prop_value_t) : Prop :=
  is_buffer_type (value_type v) = true ∧ ∃ bs, live_bytes o (data (buf v)) bs.

(** The test of line 124. *)
Definition old_buffer_released (deleteOldData : bool) (d : vehicle_prop_value_t) : bool :=
  deleteOldData && negb (data (buf d) =? NULL) && (0 <? len (buf d)).

(** If line 125 runs for a destination holding [d], it deletes a live array. *)
Definition release_defined (o : gmap Z block) (deleteOldData : bool)
    (d : vehicle_prop_value_t) : Prop :=
  old_buffer_released deleteOldData d = true →
  ∃ bs, o !! data (buf d) = Some (Bytes bs).

(** If line 125 runs for a destination holding [d], it does not delete [keep]. *)
Definition release_spares (deleteOldData : bool) (d : vehicle_prop_value_t)
    (keep : Z) : Prop :=
  old_buffer_released deleteOldData d = true → data (buf d) ≠ keep.

(** The store after lines 124-126. *)
Definition after_release (deleteOldData : bool) (d : vehicle_prop_value_t)
    (m : mem) : mem :=
  if old_buffer_released deleteOldData d
  then {| objs := delete (data (buf d)) (objs m); oom := oom m;
          trace := trace m ++ [EvDelete (data (buf d))] |}
  else m.

(** Lines 127-141 of [copyVehicleProp], what follows the release. *)
Definition copy_payload `{Build} (dest : Z) (src : vehicle_prop_value_t) : M status_t :=
  store_value dest src ;;
  if is_buffer_type (value_type src)
  then
    d <- load_value dest ;
    if 0 <? len (buf d)
    then
      p <- new (Bytes (replicate (Z.to_nat (len (buf d))) x00)) ;
      store_value dest (set_data d p) ;;
      ASSERT_OR_HANDLE_NO_MEMORY p (ret NO_MEMORY)
        (memcpy_bytes p (data (buf src)) (Z.to_nat (len (buf d))) ;;
         ret NO_ERROR)
    else
      store_value dest (set_data d NULL) ;;
      ret NO_ERROR
  else ret NO_ERROR.

(** [copyVehicleProp] asks for a buffer for [v]: line 132 is reached. *)
Definition needs_buffer `{Build} (v : vehicle_prop_value_t) : bool :=
  is_buffer_type (value_type v) && (0 <? len (buf v)).

(** The addresses logged as allocated, and as deleted, in order. *)
Definition news (t : list event) : list Z :=
  flat_map (fun e => match e with EvNew p => [p] | EvDelete _ => [] end) t.

Definition deletes (t : list event) : list Z :=
  flat_map (fun e => match e with EvDelete p => [p] | EvNew _ => [] end) t.

(** ** Ownership of the elements of a container *)

(** The data model's rule for an owned buffer: the pointer is null, or it is
    the address of a live array of exactly [len] > 0 bytes. *)
Definition str_owned (o : gmap Z block) (s : vehicle_str_t) : Prop :=
  data s = NULL ∨
  (0 < len s ∧ ∃ bs, live_bytes o (data s) bs ∧ length bs = Z.to_nat (len s)).

(** The allocations behind a buffer, a value record and a configuration
    record: what has to be deleted before the record itself. *)
Definition str_footprint (s : vehicle_str_t) : list Z :=
  if data s =? NULL then [] else [data s].

Definition value_footprint `{Build} (v : vehicle_prop_value_t) : list Z :=
  if is_buffer_type (value_type v) then str_footprint (buf v) else [].

Definition config_footprint (c : vehicle_prop_config_t) : list Z :=
  str_footprint (config_string c).

(** [owned_values o l fp]: every entry of [l] is the address of a live value
    record whose buffer, if its kind has one, follows the data model; [fp]
    lists, entry by entry, the buffer (if any) and then the record. *)
Inductive owned_values `{Build} (o : gmap Z block) : list Z → list Z → Prop :=
| owned_values_nil : owned_values o [] []
| owned_values_cons (e : Z) (v : vehicle_prop_value_t) (rest fp : list Z) :
    live_value o e v →
    (is_buffer_type (value_type v) = true → str_owned o (buf v)) →
    owned_values o rest fp →
    owned_values o (e :: rest) (value_footprint v ++ e :: fp).

(** The same for configuration records and their configuration strings. *)
Inductive owned_configs (o : gmap Z block) : list Z → list Z → Prop :=
| owned_configs_nil : owned_configs o [] []
| owned_configs_cons (e : Z) (c : vehicle_prop_config_t) (rest fp : list Z) :
    live_config o e c →
    str_owned o (config_string c) →
    owned_configs o rest fp →
    owned_configs o (e :: rest) (config_footprint c ++ e :: fp).

(** The live objects once the addresses of [fp] were deleted, in order. *)
Definition remove_all (fp : list Z) (o : gmap Z block) : gmap Z block :=
  foldl (fun o' p => delete p o') o fp.

(** A [VehiclePropertiesHolder] after [getList().push_back(e)] for each
    [e] of [l], in order. *)
Definition populate (l : list Z) (this : VehiclePropertiesHolder.t) :
    VehiclePropertiesHolder.t :=
  foldl (fun t e => VehiclePropertiesHolder.push_back e t) this l.

(** What the owner of a heap-allocated value does to release it:
    [VehiclePropValueUtil::deleteMembers(p); delete p;], the two statements
    of the loop body of lines 198-199. *)
Definition release_value `{Build} (p : Z) : M unit :=
  VehiclePropValueUtil.deleteMembers p ;; delete_value p.

(** The buffer of [v], where [copyVehicleProp] will read one, is a live array
    of exactly [len] bytes. *)
Definition valid_source `{Build} (o : gmap Z block) (v : vehicle_prop_value_t) : Prop :=
  needs_buffer v = true →
  ∃ bs, live_bytes o (data (buf v)) bs ∧ length bs = Z.to_nat (len (buf v)).

(** A client that fills a list for an owning holder: one [allocVehicleProp]
    per source value, in order.  A status handed back in place of a pointer
    cannot be stored as an entry. *)
Fixpoint alloc_each `{Build} (srcs : list vehicle_prop_value_t) : M (list Z) :=
  match srcs with
  | [] => ret []
  | v :: rest =>
      r <- VehiclePropValueUtil.allocVehicleProp v ;
      match r with
      | VehiclePropValueUtil.RetPtr p => ps <- alloc_each rest ; ret (p :: ps)
      | VehiclePropValueUtil.RetStatus _ => undefined
      end
  end.

(** The whole life of an owning list: copies of [srcs] are allocated, put
    in a new list object, the list is given to a holder with
    [deleteInDestructor] set, and the holder is destroyed. *)
Definition fill_and_destroy `{Build} (srcs : list vehicle_prop_value_t) : M unit :=
  ps <- alloc_each srcs ;
  lst <- new (ValueList ps) ;
  VehiclePropValueListHolder.dtor (VehiclePropValueListHolder.ctor lst true).

(** ** What the owning destructors delete *)

(** What line 62 selects for deletion before a configuration record: its
    string, when the pointer is not null and the length is positive. *)
Definition config_released (c : vehicle_prop_config_t) : list Z :=
  if negb (data (config_string c) =? NULL) && (0 <? len (config_string c))
  then [data (config_string c)]
  else [].

(** [held_values o l fp]: every entry of [l] is the address of a live value
    record, and the buffer pointer of each STRING or BYTES record, when not
    null, is the address of a live array, of any length; [fp] lists, entry
    by entry, that buffer (if any) and then the record. *)
Inductive held_values `{Build} (o : gmap Z block) : list Z → list Z → Prop :=
| held_values_nil : held_values o [] []
| held_values_cons (e : Z) (v : vehicle_prop_value_t) (rest fp : list Z) :
    live_value o e v →
    (∀ a, a ∈ value_footprint v → ∃ bs, live_bytes o a bs) →
    held_values o rest fp →
    held_values o (e :: rest) (value_footprint v ++ e :: fp).

(** [held_configs o l fp]: every entry of [l] is the address of a live
    configuration record, and each string that line 62 selects is a live
    array; [fp] lists, entry by entry, that string (if selected) and then
    the record.  A string with a non-null pointer and a length of zero or
    less is not in [fp]. *)
Inductive held_configs (o : gmap Z block) : list Z → list Z → Prop :=
| held_configs_nil : held_configs o [] []
| held_configs_cons (e : Z) (c : vehicle_prop_config_t) (rest fp : list Z) :
    live_config o e c →
    (∀ a, a ∈ config_released c → ∃ bs, live_bytes o a bs) →
    held_configs o rest fp →
    held_configs o (e :: rest) (config_released c ++ e :: fp).

(** ** Sample stores *)

(** The STRING value ["ABC"], its buffer at address 5. *)
Definition abc_source : vehicle_prop_value_t :=
  {| prop := 7; value_type := 1; timestamp := 9; zone := 3;
     value := {| str_value := {| data := 5; len := 3 |} |} |}.

(** An empty STRING value. *)
Definition empty_source : vehicle_prop_value_t :=
  {| prop := 7; value_type := 1; timestamp := 9; zone := 3;
     value := {| str_value := {| data := NULL; len := 0 |} |} |}.

(** A BYTES value of two bytes, its buffer at address 8. *)
Definition bytes_dest : vehicle_prop_value_t :=
  {| prop := 4; value_type := 2; timestamp := 1; zone := 0;
     value := {| str_value := {| data := 8; len := 2 |} |} |}.

(** A scalar value (tag 16) whose payload bytes are those of the floats 1.0
    and 1.0: read through [str_value] they spell the pointer 0x3f800000 and
    the length 0x3f800000. *)
Definition float_dest : vehicle_prop_value_t :=
  {| prop := 4; value_type := 16; timestamp := 1; zone := 0;
     value := {| str_value := {| data := 1065353216; len := 1065353216 |} |} |}.

(** ["ABC"] at 5, a two-byte array at 8, a record owning it at 9. *)
Definition store_abc : mem :=
  {| objs := <[5 := Bytes [x41; x42; x43]]>
               (<[8 := Bytes [x01; x02]]> (<[9 := PropValue bytes_dest]> ∅));
     oom := []; trace := [] |}.

(** ["ABC"] at 5 and the scalar record at 9. *)
Definition store_float : mem :=
  {| objs := <[5 := Bytes [x41; x42; x43]]> (<[9 := PropValue float_dest]> ∅);
     oom := []; trace := [] |}.

(** [store_abc] where the coming allocation requests are decided by [o]. *)
Definition store_abc_oom (o : list bool) : mem :=
  {| objs := objs store_abc; oom := o; trace := [] |}.

(** A configuration with the string ["AB"] at 31, and one without string. *)
Definition config_with_string : vehicle_prop_config_t :=
  {| config_prop := 1; config_value_type := 1; config_access := 3;
     config_string := {| data := 31; len := 2 |} |}.

Definition config_plain : vehicle_prop_config_t :=
  {| config_prop := 2; config_value_type := 16; config_access := 1;
     config_string := {| data := NULL; len := 0 |} |}.

(** A list object at 20 holding the BYTES record at 9 (buffer at 8) and the
    scalar record at 12; configuration records at 30 (string at 31) and 32;
    the array ["ABC"] at 5 belongs to none of them. *)
Definition store_lists : mem :=
  {| objs := <[5 := Bytes [x41; x42; x43]]>
               (<[8 := Bytes [x01; x02]]>
               (<[9 := PropValue bytes_dest]>
               (<[12 := PropValue float_dest]>
               (<[20 := ValueList [9; 12]]>
               (<[30 := PropConfig config_with_string]>
               (<[31 := Bytes [x41; x42]]>
               (<[32 := PropConfig config_plain]> ∅)))))));
     oom := []; trace := [] |}.

(** A configuration whose string pointer is a live, empty array at 5 and
    whose length is 0, alone in a store with that array. *)
Definition config_empty_string : vehicle_prop_config_t :=
  {| config_prop := 1; config_value_type := 1; config_access := 3;
     config_string := {| data := 5; len := 0 |} |}.

Definition store_empty_string : mem :=
  {| objs := <[5 := Bytes []]> (<[30 := PropConfig config_empty_string]> ∅);
     oom := []; trace := [] |}.

(** An empty STRING value whose buffer is a live, empty array at 14. *)
Definition empty_array_value : vehicle_prop_value_t :=
  {| prop := 5; value_type := 1; timestamp := 2; zone := 0;
     value := {| str_value := {| data := 14; len := 0 |} |} |}.

(** A configuration whose string is a live, empty array at 34, length 0. *)
Definition config_empty_array : vehicle_prop_config_t :=
  {| config_prop := 3; config_value_type := 1; config_access := 3;
     config_string := {| data := 34; len := 0 |} |}.

(** [store_lists] with two more records: the value at 13 (empty array at
    14) and the configuration at 33 (empty array at 34); the list object at
    20 holds 9, 12 and 13. *)
Definition store_mixed : mem :=
  {| objs := <[13 := PropValue empty_array_value]>
               (<[14 := Bytes []]>
               (<[20 := ValueList [9; 12; 13]]>
               (<[33 := PropConfig config_empty_array]>
               (<[34 := Bytes []]> (objs store_lists)))));
     oom := []; trace := [] |}.

(** ** Reasoning about the store *)

Lemma fresh_addr_not_null (o : gmap Z block) : fresh_addr o ≠ NULL.
Proof.
  unfold fresh_addr. intros E.
  pose proof (is_fresh ({[NULL]} ∪ dom o)) as F. rewrite E in F. set_solver.
Qed.

Lemma fresh_addr_free (o : gmap Z block) : o !! fresh_addr o = None.
Proof.
  unfold fresh_addr. apply not_elem_of_dom.
  pose proof (is_fresh ({[NULL]} ∪ dom o)) as F. set_solver.
Qed.

Lemma fresh_addr_ne (o : gmap Z block) (p : Z) (b : block) :
  o !! p = Some b → fresh_addr o ≠ p.
Proof. intros L E. rewrite <- E, fresh_addr_free in L. discriminate. Qed.

Lemma eqb_NULL_false (p : Z) : p ≠ NULL → (p =? NULL) = false.
Proof. intros. by apply Z.eqb_neq. Qed.

Lemma deref_live (p : Z) (b : block) (m : mem) :
  p ≠ NULL → objs m !! p = Some b → deref p m = Done b m.
Proof. intros N L. unfold deref. by rewrite (eqb_NULL_false _ N), L. Qed.

Lemma assign_live (p : Z) (b0 b : block) (m : mem) :
  p ≠ NULL → objs m !! p = Some b0 →
  assign p b m = Done tt (set_objs (<[p := b]> (objs m)) m).
Proof. intros N L. unfold assign, bind. by rewrite (deref_live _ _ _ N L). Qed.

Lemma load_value_live (p : Z) (v : vehicle_prop_value_t) (m : mem) :
  p ≠ NULL → objs m !! p = Some (PropValue v) → load_value p m = Done v m.
Proof. intros N L. unfold load_value, bind. by rewrite (deref_live _ _ _ N L). Qed.

Lemma load_config_live (p : Z) (c : vehicle_prop_config_t) (m : mem) :
  p ≠ NULL → objs m !! p = Some (PropConfig c) → load_config p m = Done c m.
Proof. intros N L. unfold load_config, bind. by rewrite (deref_live _ _ _ N L). Qed.

Lemma load_bytes_live (p : Z) (bs : list byte) (m : mem) :
  p ≠ NULL → objs m !! p = Some (Bytes bs) → load_bytes p m = Done bs m.
Proof. intros N L. unfold load_bytes, bind. by rewrite (deref_live _ _ _ N L). Qed.

Lemma load_list_live (p : Z) (l : list Z) (m : mem) :
  p ≠ NULL → objs m !! p = Some (ValueList l) → load_list p m = Done l m.
Proof. intros N L. unfold load_list, bind. by rewrite (deref_live _ _ _ N L). Qed.

Lemma store_value_live (p : Z) (v0 v : vehicle_prop_value_t) (m : mem) :
  p ≠ NULL → objs m !! p = Some (PropValue v0) →
  store_value p v m = Done tt (set_objs (<[p := PropValue v]> (objs m)) m).
Proof.
  intros N L. unfold store_value, bind.
  by rewrite (load_value_live _ _ _ N L), (assign_live _ _ _ _ N L).
Qed.

Lemma new_ok (b : block) (m : mem) :
  nth 0 (oom m) false = false →
  new b m = Done (fresh_addr (objs m))
                 {| objs := <[fresh_addr (objs m) := b]> (objs m);
                    oom := tail (oom m);
                    trace := trace m ++ [EvNew (fresh_addr (objs m))] |}.
Proof. intros O. unfold new. by rewrite O. Qed.

Lemma new_fails (b : block) (m : mem) :
  nth 0 (oom m) false = true →
  new b m = Done NULL {| objs := objs m; oom := tail (oom m); trace := trace m |}.
Proof. intros O. unfold new. by rewrite O. Qed.

Lemma delete_kind_live (kind : block → bool) (p : Z) (b : block) (m : mem) :
  p ≠ NULL → objs m !! p = Some b → kind b = true →
  delete_kind kind p m =
    Done tt {| objs := delete p (objs m); oom := oom m;
               trace := trace m ++ [EvDelete p] |}.
Proof.
  intros N L K. unfold delete_kind. by rewrite (eqb_NULL_false _ N), L, K.
Qed.

Lemma delete_kind_null (kind : block → bool) (m : mem) :
  delete_kind kind NULL m = Done tt m.
Proof. reflexivity. Qed.

Lemma delete_kind_dangling (kind : block → bool) (p : Z) (m : mem) :
  p ≠ NULL → objs m !! p = None → delete_kind kind p m = Undefined.
Proof. intros N L. unfold delete_kind. by rewrite (eqb_NULL_false _ N), L. Qed.

Lemma write_byte_frame (p q : Z) (i : nat) (b : byte) (m m' : mem) :
  write_byte p i b m = Done tt m' → q ≠ p → objs m' !! q = objs m !! q.
Proof.
  unfold write_byte, load_bytes, assign, bind, deref, ret, undefined.
  intros E N. destruct (p =? NULL) eqn:P; [discriminate|].
  destruct (objs m !! p) as [[bs| | |]|] eqn:L; try discriminate.
  destruct (i <? length bs)%nat; try discriminate.
  rewrite L in E. injection E as <-. simpl. by apply lookup_insert_ne.
Qed.

(** ** [copyVehicleProp], step by step *)

Section Copy.
Context `{Build}.

Lemma copyVehicleProp_split (dest : Z) (src : vehicle_prop_value_t) (flag : bool) :
  VehiclePropValueUtil.copyVehicleProp dest src flag =
    (d <- load_value dest ;
     (if old_buffer_released flag d then delete_array (data (buf d)) else ret tt) ;;
     copy_payload dest src).
Proof. reflexivity. Qed.

Lemma release_step (flag : bool) (d : vehicle_prop_value_t) (m : mem) :
  release_defined (objs m) flag d →
  (if old_buffer_released flag d then delete_array (data (buf d)) else ret tt) m
    = Done tt (after_release flag d m).
Proof.
  unfold release_defined, after_release. intros R.
  destruct (old_buffer_released flag d) eqn:E; [|done].
  destruct (R eq_refl) as [bs L].
  unfold old_buffer_released in E.
  apply andb_prop in E as [E _]. apply andb_prop in E as [_ E].
  apply negb_true_iff, Z.eqb_neq in E.
  by apply (delete_kind_live is_bytes _ (Bytes bs)).
Qed.

Lemma after_release_oom (flag : bool) (d : vehicle_prop_value_t) (m : mem) :
  oom (after_release flag d m) = oom m.
Proof. unfold after_release. by destruct (old_buffer_released flag d). Qed.

Lemma after_release_lookup (flag : bool) (d : vehicle_prop_value_t) (m : mem) (p : Z) :
  (old_buffer_released flag d = true → data (buf d) ≠ p) →
  objs (after_release flag d m) !! p = objs m !! p.
Proof.
  unfold after_release. intros N.
  destruct (old_buffer_released flag d); [|done].
  simpl. apply lookup_delete_ne. by apply N.
Qed.

Lemma after_release_news (flag : bool) (d : vehicle_prop_value_t) (m : mem) :
  news (trace (after_release flag d m)) = news (trace m).
Proof.
  unfold after_release. destruct (old_buffer_released flag d); [|done].
  simpl. unfold news. rewrite flat_map_app. simpl. by rewrite app_nil_r.
Qed.

Lemma copy_payload_scalar (dest : Z) (d0 src : vehicle_prop_value_t) (m : mem) :
  live_value (objs m) dest d0 →
  is_buffer_type (value_type src) = false →
  copy_payload dest src m
    = Done NO_ERROR (set_objs (<[dest := PropValue src]> (objs m)) m).
Proof.
  intros [N L] T. unfold copy_payload, bind.
  by rewrite (store_value_live _ _ _ _ N L), T.
Qed.

Lemma copy_payload_empty (dest : Z) (d0 src : vehicle_prop_value_t) (m : mem) :
  live_value (objs m) dest d0 →
  is_buffer_type (value_type src) = true →
  len (buf src) <= 0 →
  copy_payload dest src m
    = Done NO_ERROR (set_objs (<[dest := PropValue (set_data src NULL)]> (objs m)) m).
Proof.
  intros [N L] T Z0. unfold copy_payload, bind.
  rewrite (store_value_live _ _ _ _ N L), T.
  rewrite (load_value_live dest src); [|done|by simpl; rewrite lookup_insert_eq].
  replace (0 <? len (buf src)) with false by (symmetry; apply Z.ltb_ge; lia).
  rewrite (store_value_live dest src); [|done|by simpl; rewrite lookup_insert_eq].
  unfold ret, set_objs. simpl. by rewrite insert_insert_eq.
Qed.

Lemma fresh_addr_insert_live (o : gmap Z block) (p : Z) (b0 b : block) :
  o !! p = Some b0 → fresh_addr (<[p := b]> o) = fresh_addr o.
Proof.
  intros L. unfold fresh_addr. f_equal. rewrite dom_insert_L.
  assert (D : p ∈ dom o) by (apply elem_of_dom; eauto).
  apply set_eq. intros x. rewrite !elem_of_union, !elem_of_singleton.
  split; [intros [?|[->|?]]|intros [?|?]]; auto.
Qed.

Lemma copy_payload_buffer (dest : Z) (d0 src : vehicle_prop_value_t)
    (bs : list byte) (m : mem) :
  live_value (objs m) dest d0 →
  is_buffer_type (value_type src) = true →
  0 < len (buf src) →
  live_bytes (objs m) (data (buf src)) bs →
  length bs = Z.to_nat (len (buf src)) →
  nth 0 (oom m) false = false →
  copy_payload dest src m
    = Done NO_ERROR
        {| objs := <[fresh_addr (objs m) := Bytes bs]>
                     (<[dest := PropValue (set_data src (fresh_addr (objs m)))]> (objs m));
           oom := tail (oom m);
           trace := trace m ++ [EvNew (fresh_addr (objs m))] |}.
Proof.
  intros [N L] T Lpos [Ns Ls] Len O. unfold copy_payload, bind.
  rewrite (store_value_live _ _ _ _ N L), T.
  rewrite (load_value_live dest src); [|done|by simpl; rewrite lookup_insert_eq].
  replace (0 <? len (buf src)) with true by (symmetry; apply Z.ltb_lt; lia).
  rewrite new_ok by done. simpl.
  rewrite (fresh_addr_insert_live _ _ _ _ L).
  set (p := fresh_addr (objs m)).
  assert (Pn : p ≠ NULL) by apply fresh_addr_not_null.
  assert (Pd : p ≠ dest) by (by apply (fresh_addr_ne _ _ (PropValue d0))).
  assert (Ps : p ≠ data (buf src)) by (by apply (fresh_addr_ne _ _ (Bytes bs))).
  assert (Ds : dest ≠ data (buf src)).
  { intros E. rewrite <- E, L in Ls. discriminate. }
  rewrite (store_value_live dest src);
    [|done|by simpl; rewrite lookup_insert_ne, lookup_insert_eq].
  unfold ASSERT_OR_HANDLE_NO_MEMORY. rewrite (eqb_NULL_false _ Pn).
  unfold set_objs at 1. simpl.
  assert (memcpy_bytes p (data (buf src)) (Z.to_nat (len (buf src)))
            {| objs := <[dest := PropValue (set_data src p)]>
                         (<[p := Bytes (replicate (Z.to_nat (len (buf src))) x00)]>
                            (<[dest := PropValue src]> (objs m)));
               oom := tail (oom m); trace := trace m ++ [EvNew p] |}
          = Done tt
              {| objs := <[p := Bytes bs]>
                           (<[dest := PropValue (set_data src p)]> (objs m));
                 oom := tail (oom m); trace := trace m ++ [EvNew p] |}) as E.
  { unfold memcpy_bytes, bind.
    rewrite (load_bytes_live (data (buf src)) bs); [|done|].
    2:{ simpl. rewrite lookup_insert_ne, lookup_insert_ne, lookup_insert_ne; auto. }
    rewrite (load_bytes_live p (replicate (Z.to_nat (len (buf src))) x00)); [|done|].
    2:{ simpl. rewrite lookup_insert_ne, lookup_insert_eq; auto. }
    rewrite length_replicate, <- Len, Nat.leb_refl. simpl.
    erewrite assign_live; [|done|].
    2:{ simpl. rewrite lookup_insert_ne, lookup_insert_eq; auto. }
    unfold set_objs. simpl. f_equal. f_equal.
    rewrite take_ge by lia. rewrite drop_ge by (rewrite length_replicate; lia).
    rewrite app_nil_r.
    apply map_eq. intros k. rewrite !lookup_insert.
    repeat case_decide; congruence. }
  by destruct ASSERT_ON_NO_MEMORY; rewrite E.
Qed.

Lemma copy_payload_no_memory_abort (dest : Z) (d0 src : vehicle_prop_value_t)
    (m : mem) :
  ASSERT_ON_NO_MEMORY = true →
  live_value (objs m) dest d0 →
  is_buffer_type (value_type src) = true →
  0 < len (buf src) →
  nth 0 (oom m) false = true →
  copy_payload dest src m = Abort.
Proof.
  intros A [N L] T Lpos O. unfold copy_payload, bind.
  rewrite (store_value_live _ _ _ _ N L), T.
  rewrite (load_value_live dest src); [|done|by simpl; rewrite lookup_insert_eq].
  replace (0 <? len (buf src)) with true by (symmetry; apply Z.ltb_lt; lia).
  rewrite new_fails by done.
  rewrite (store_value_live dest src); [|done|by simpl; rewrite lookup_insert_eq].
  unfold ASSERT_OR_HANDLE_NO_MEMORY. by rewrite A.
Qed.

Lemma copy_payload_no_memory_propagate (dest : Z) (d0 src : vehicle_prop_value_t)
    (m : mem) :
  ASSERT_ON_NO_MEMORY = false →
  live_value (objs m) dest d0 →
  is_buffer_type (value_type src) = true →
  0 < len (buf src) →
  nth 0 (oom m) false = true →
  copy_payload dest src m
    = Done NO_MEMORY
        {| objs := <[dest := PropValue (set_data src NULL)]> (objs m);
           oom := tail (oom m); trace := trace m |}.
Proof.
  intros A [N L] T Lpos O. unfold copy_payload, bind.
  rewrite (store_value_live _ _ _ _ N L), T.
  rewrite (load_value_live dest src); [|done|by simpl; rewrite lookup_insert_eq].
  replace (0 <? len (buf src)) with true by (symmetry; apply Z.ltb_lt; lia).
  rewrite new_fails by done.
  rewrite (store_value_live dest src); [|done|by simpl; rewrite lookup_insert_eq].
  unfold ASSERT_OR_HANDLE_NO_MEMORY. rewrite A. simpl.
  unfold ret, set_objs. simpl. by rewrite insert_insert_eq.
Qed.

Lemma released_is_not_a_record (flag : bool) (dest : Z) (d d0 : vehicle_prop_value_t)
    (o : gmap Z block) :
  release_defined o flag d → o !! dest = Some (PropValue d0) →
  old_buffer_released flag d = true → data (buf d) ≠ dest.
Proof.
  intros R L E Q. destruct (R E) as [bs B]. rewrite Q, L in B. discriminate.
Qed.

End Copy.

(** ** Deep copy *)

(** C1.  Copying a STRING or BYTES value whose buffer is a live array of
    [len] > 0 bytes, when the allocation request is granted, returns
    [NO_ERROR]; the destination then has the source's type, length,
    property identifier, timestamp and zone, its buffer pointer differs from
    the source's and designates an array with the same bytes, and no later
    write into the source's array changes that array. *)
Theorem copyVehicleProp_deep_copy `{Build} (dest : Z) (d0 src : vehicle_prop_value_t)
    (deleteOldData : bool) (bs : list byte) (h : mem) :
  is_buffer_type (value_type src) = true →
  0 < len (buf src) →
  live_bytes (objs h) (data (buf src)) bs →
  length bs = Z.to_nat (len (buf src)) →
  live_value (objs h) dest d0 →
  release_defined (objs h) deleteOldData d0 →
  release_spares deleteOldData d0 (data (buf src)) →
  nth 0 (oom h) false = false →
  ∃ h' d',
    VehiclePropValueUtil.copyVehicleProp dest src deleteOldData h = Done NO_ERROR h' ∧
    live_value (objs h') dest d' ∧
    value_type d' = value_type src ∧
    len (buf d') = len (buf src) ∧
    prop d' = prop src ∧
    timestamp d' = timestamp src ∧
    zone d' = zone src ∧
    data (buf d') ≠ data (buf src) ∧
    live_bytes (objs h') (data (buf d')) bs ∧
    live_bytes (objs h') (data (buf src)) bs ∧
    ∀ i b h'', write_byte (data (buf src)) i b h' = Done tt h'' →
               live_bytes (objs h'') (data (buf d')) bs.
Proof.
  intros T Lpos [Ns Ls] Len [N L] R S O.
  pose proof (released_is_not_a_record _ _ _ _ _ R L) as RD.
  set (m1 := after_release deleteOldData d0 h).
  assert (L1 : live_value (objs m1) dest d0).
  { split; [done|]. unfold m1. by rewrite after_release_lookup. }
  assert (S1 : live_bytes (objs m1) (data (buf src)) bs).
  { split; [done|]. unfold m1. by rewrite after_release_lookup. }
  assert (O1 : nth 0 (oom m1) false = false).
  { unfold m1. by rewrite after_release_oom. }
  rewrite copyVehicleProp_split. unfold bind at 1.
  rewrite (load_value_live _ _ _ N L). unfold bind.
  rewrite (release_step _ _ _ R). fold m1.
  rewrite (copy_payload_buffer _ _ _ _ _ L1 T Lpos S1 Len O1).
  set (p := fresh_addr (objs m1)).
  assert (Pn : p ≠ NULL) by apply fresh_addr_not_null.
  assert (Pd : p ≠ dest) by (by apply (fresh_addr_ne _ _ (PropValue d0)), L1).
  assert (Ps : p ≠ data (buf src)) by (by apply (fresh_addr_ne _ _ (Bytes bs)), S1).
  assert (Ds : dest ≠ data (buf src)).
  { intros E. rewrite <- E, L in Ls. discriminate. }
  eexists _, (set_data src p). split; [reflexivity|]. simpl.
  repeat split; try done.
  - by rewrite lookup_insert_ne, lookup_insert_eq.
  - by rewrite lookup_insert_eq.
  - rewrite !lookup_insert_ne by done. apply S1.
  - match goal with
    | W : write_byte _ _ _ _ = _ |- _ =>
        rewrite (write_byte_frame _ p _ _ _ _ W) by done
    end.
    simpl. by rewrite lookup_insert_eq.
Qed.

(** C2.  Copying a STRING or BYTES value of length 0 returns [NO_ERROR] and
    leaves the destination with a null buffer pointer and length 0; it makes
    no allocation request, logs no allocation and adds no object to the
    store. *)
Theorem copyVehicleProp_zero_length `{Build} (dest : Z) (d0 src : vehicle_prop_value_t)
    (deleteOldData : bool) (h : mem) :
  is_buffer_type (value_type src) = true →
  len (buf src) = 0 →
  live_value (objs h) dest d0 →
  release_defined (objs h) deleteOldData d0 →
  ∃ h' d',
    VehiclePropValueUtil.copyVehicleProp dest src deleteOldData h = Done NO_ERROR h' ∧
    live_value (objs h') dest d' ∧
    data (buf d') = NULL ∧
    len (buf d') = 0 ∧
    oom h' = oom h ∧
    news (trace h') = news (trace h) ∧
    dom (objs h') ⊆ dom (objs h).
Proof.
  intros T Z0 [N L] R.
  pose proof (released_is_not_a_record _ _ _ _ _ R L) as RD.
  set (m1 := after_release deleteOldData d0 h).
  assert (L1 : live_value (objs m1) dest d0).
  { split; [done|]. unfold m1. by rewrite after_release_lookup. }
  rewrite copyVehicleProp_split. unfold bind at 1.
  rewrite (load_value_live _ _ _ N L). unfold bind.
  rewrite (release_step _ _ _ R). fold m1.
  rewrite (copy_payload_empty _ _ _ _ L1 T) by lia.
  eexists _, (set_data src NULL). split; [reflexivity|]. simpl.
  repeat split; try done.
  - by rewrite lookup_insert_eq.
  - apply after_release_oom.
  - apply after_release_news.
  - rewrite dom_insert. intros x. rewrite elem_of_union, elem_of_singleton.
    intros [->|D]; [apply elem_of_dom; eauto|].
    unfold m1, after_release in D.
    destruct (old_buffer_released deleteOldData d0); [|done].
    simpl in D. rewrite dom_delete_L in D. by apply elem_of_difference in D as [D _].
Qed.

Lemma copyVehicleProp_deep_copy_witness :
  ∃ h' d',
    VehiclePropValueUtil.copyVehicleProp (H := shipped) 9 abc_source true store_abc
      = Done NO_ERROR h' ∧
    live_value (objs h') 9 d' ∧
    value_type d' = value_type abc_source ∧
    len (buf d') = len (buf abc_source) ∧
    prop d' = prop abc_source ∧
    timestamp d' = timestamp abc_source ∧
    zone d' = zone abc_source ∧
    data (buf d') ≠ data (buf abc_source) ∧
    live_bytes (objs h') (data (buf d')) [x41; x42; x43] ∧
    live_bytes (objs h') (data (buf abc_source)) [x41; x42; x43] ∧
    ∀ i b h'', write_byte (data (buf abc_source)) i b h' = Done tt h'' →
               live_bytes (objs h'') (data (buf d')) [x41; x42; x43].
Proof.
  apply (copyVehicleProp_deep_copy (H := shipped) 9 bytes_dest abc_source true
           [x41; x42; x43] store_abc).
  - reflexivity.
  - simpl. lia.
  - split; [discriminate | reflexivity].
  - reflexivity.
  - split; [discriminate | reflexivity].
  - intros _. eexists. reflexivity.
  - intros _. discriminate.
  - reflexivity.
Defined.

Lemma copyVehicleProp_zero_length_witness :
  ∃ h' d',
    VehiclePropValueUtil.copyVehicleProp (H := shipped) 9 empty_source true store_abc
      = Done NO_ERROR h' ∧
    live_value (objs h') 9 d' ∧
    data (buf d') = NULL ∧
    len (buf d') = 0 ∧
    oom h' = oom store_abc ∧
    news (trace h') = news (trace store_abc) ∧
    dom (objs h') ⊆ dom (objs store_abc).
Proof.
  apply (copyVehicleProp_zero_length (H := shipped) 9 bytes_dest empty_source true
           store_abc).
  - reflexivity.
  - reflexivity.
  - split; [discriminate | reflexivity].
  - intros _. eexists. reflexivity.
Defined.

(** ** Release of the destination's old buffer *)

(** For a destination that satisfies the data model (a buffer-kind record
    whose pointer is null, or a live array with a positive length) the test
    of line 124 is exactly ownership. *)
Lemma release_iff_owned `{Build} (d : vehicle_prop_value_t) (o : gmap Z block) :
  is_buffer_type (value_type d) = true →
  (data (buf d) = NULL ∨ (0 < len (buf d) ∧ ∃ bs, live_bytes o (data (buf d)) bs)) →
  (old_buffer_released true d = true ↔ owns_buffer o d) ∧
  old_buffer_released false d = false.
Proof.
  intros T WF. split; [|done]. unfold old_buffer_released, owns_buffer. simpl.
  rewrite andb_true_iff, negb_true_iff, Z.eqb_neq, Z.ltb_lt. split.
  - intros [N P]. split; [done|]. destruct WF as [?|[_ ?]]; [done|done].
  - intros [_ [bs [N _]]]. split; [done|]. destruct WF as [?|[? _]]; [done|done].
Qed.

(** C3.  With [deleteOldData] set, a destination holding a scalar record,
    which owns no buffer, still has its payload bytes read as a pointer and
    a length; if they read as a non-null pointer and a positive length the
    code deletes that address: undefined behaviour when nothing lives there,
    and the release of some array the destination does not own when one does
    (the copy then goes on in the store that lost that array). *)
Theorem copyVehicleProp_release_ignores_type `{Build} (dest : Z)
    (d0 src : vehicle_prop_value_t) (h : mem) :
  live_value (objs h) dest d0 →
  is_buffer_type (value_type d0) = false →
  data (buf d0) ≠ NULL →
  0 < len (buf d0) →
  ¬ owns_buffer (objs h) d0 ∧
  (objs h !! data (buf d0) = None →
   VehiclePropValueUtil.copyVehicleProp dest src true h = Undefined) ∧
  (∀ bs, objs h !! data (buf d0) = Some (Bytes bs) →
   VehiclePropValueUtil.copyVehicleProp dest src true h
     = copy_payload dest src
         {| objs := delete (data (buf d0)) (objs h); oom := oom h;
            trace := trace h ++ [EvDelete (data (buf d0))] |}).
Proof.
  intros [N L] T Dn Lpos.
  assert (E : old_buffer_released true d0 = true).
  { unfold old_buffer_released. simpl.
    apply andb_true_iff. split; [by apply negb_true_iff, Z.eqb_neq | by apply Z.ltb_lt]. }
  split; [|split].
  - intros [T' _]. congruence.
  - intros D. rewrite copyVehicleProp_split. unfold bind.
    rewrite (load_value_live _ _ _ N L), E.
    unfold delete_array. by rewrite delete_kind_dangling.
  - intros bs B. rewrite copyVehicleProp_split. unfold bind.
    rewrite (load_value_live _ _ _ N L), E.
    unfold delete_array. by rewrite (delete_kind_live _ _ (Bytes bs)).
Qed.

Lemma copyVehicleProp_release_ignores_type_witness :
  ¬ owns_buffer (H := shipped) (objs store_float) float_dest ∧
  (objs store_float !! data (buf float_dest) = None →
   VehiclePropValueUtil.copyVehicleProp (H := shipped) 9 abc_source true store_float
     = Undefined) ∧
  (∀ bs, objs store_float !! data (buf float_dest) = Some (Bytes bs) →
   VehiclePropValueUtil.copyVehicleProp (H := shipped) 9 abc_source true store_float
     = copy_payload (H := shipped) 9 abc_source
         {| objs := delete (data (buf float_dest)) (objs store_float);
            oom := oom store_float;
            trace := trace store_float ++ [EvDelete (data (buf float_dest))] |}).
Proof.
  apply (copyVehicleProp_release_ignores_type (H := shipped) 9 float_dest abc_source
           store_float).
  - split; [discriminate | reflexivity].
  - reflexivity.
  - discriminate.
  - reflexivity.
Defined.

(** At the sample input the copy is undefined: the address 0x3f800000 that
    the code hands to [delete[]] was never allocated. *)
Lemma copyVehicleProp_onto_float_undefined :
  VehiclePropValueUtil.copyVehicleProp (H := shipped) 9 abc_source true store_float
    = Undefined.
Proof. vm_compute. reflexivity. Qed.

(** ** [deleteMembers] *)

Lemma deleteMembers_of_scalar `{Build} (v : Z) (r : vehicle_prop_value_t) (h : mem) :
  live_value (objs h) v r →
  is_buffer_type (value_type r) = false →
  VehiclePropValueUtil.deleteMembers v h = Done tt h.
Proof.
  intros [N L] T. unfold VehiclePropValueUtil.deleteMembers, bind.
  by rewrite (eqb_NULL_false _ N), (load_value_live _ _ _ N L), T.
Qed.

Lemma deleteMembers_of_buffer `{Build} (v : Z) (r : vehicle_prop_value_t) (h : mem) :
  live_value (objs h) v r →
  is_buffer_type (value_type r) = true →
  VehiclePropValueUtil.deleteMembers v h = delete_array (data (buf r)) h.
Proof.
  intros [N L] T. unfold VehiclePropValueUtil.deleteMembers, bind.
  by rewrite (eqb_NULL_false _ N), (load_value_live _ _ _ N L), T.
Qed.

(** C5.  On a record of a scalar kind [deleteMembers] returns with the whole
    memory, the record included, as it was and nothing logged as deleted; on a
    STRING or BYTES record it deletes the buffer, and nothing else. *)
Theorem deleteMembers_scalar_noop `{Build} (v : Z) (r : vehicle_prop_value_t) (h : mem) :
  live_value (objs h) v r →
  (is_buffer_type (value_type r) = false →
   VehiclePropValueUtil.deleteMembers v h = Done tt h) ∧
  (is_buffer_type (value_type r) = true →
   ∀ bs, live_bytes (objs h) (data (buf r)) bs →
   VehiclePropValueUtil.deleteMembers v h
     = Done tt {| objs := delete (data (buf r)) (objs h); oom := oom h;
                  trace := trace h ++ [EvDelete (data (buf r))] |}).
Proof.
  intros L. split; intros T.
  - by apply (deleteMembers_of_scalar v r).
  - intros bs [Nb Lb]. rewrite (deleteMembers_of_buffer v r) by done.
    by apply (delete_kind_live _ _ (Bytes bs)).
Qed.

Lemma deleteMembers_scalar_noop_witness :
  (is_buffer_type (H := shipped) (value_type float_dest) = false →
   VehiclePropValueUtil.deleteMembers (H := shipped) 9 store_float = Done tt store_float) ∧
  (is_buffer_type (H := shipped) (value_type float_dest) = true →
   ∀ bs, live_bytes (objs store_float) (data (buf float_dest)) bs →
   VehiclePropValueUtil.deleteMembers (H := shipped) 9 store_float
     = Done tt {| objs := delete (data (buf float_dest)) (objs store_float);
                  oom := oom store_float;
                  trace := trace store_float ++ [EvDelete (data (buf float_dest))] |}).
Proof.
  apply (deleteMembers_scalar_noop (H := shipped) 9 float_dest store_float).
  split; [discriminate | reflexivity].
Defined.

(** C10.  [VehiclePropValueUtil::deleteMembers] returns at once on a null
    pointer, leaving memory as it was; [VehiclePropertiesUtil::deleteMembers]
    dereferences its argument untested, so on a null pointer its behaviour is
    undefined. *)
Theorem deleteMembers_null `{Build} (h : mem) :
  VehiclePropValueUtil.deleteMembers NULL h = Done tt h ∧
  VehiclePropertiesUtil.deleteMembers NULL h = Undefined.
Proof. split; reflexivity. Qed.

(** ** [ScopedVehiclePropValue] *)

(** C8.  The constructor leaves the all-zero record in the embedded value:
    every field is 0 and the buffer pointer is null, so destroying it at once
    releases nothing.  A scope that declares a [ScopedVehiclePropValue] and
    whose body returns, with any result, then runs [deleteMembers] on the
    embedded value once and hands the body's result on; when the value holds
    a buffer at that point, that buffer is deleted, once. *)
Theorem ScopedVehiclePropValue_contract `{Build} (this : Z)
    (junk : vehicle_prop_value_t) (h : mem) :
  live_value (objs h) this junk →
  let h0 := set_objs (<[this := PropValue zero_value]> (objs h)) h in
  ScopedVehiclePropValue.ctor this h = Done tt h0 ∧
  (prop zero_value = 0 ∧ value_type zero_value = 0 ∧ timestamp zero_value = 0 ∧
   zone zero_value = 0 ∧ data (buf zero_value) = NULL ∧ len (buf zero_value) = 0) ∧
  ScopedVehiclePropValue.dtor this h0 = Done tt h0 ∧
  (∀ (A : Type) (body : Z → M A) (r : A) (h1 : mem),
     body this h0 = Done r h1 →
     ScopedVehiclePropValue.scope this body h
       = (VehiclePropValueUtil.deleteMembers this ;; ret r) h1) ∧
  (∀ (A : Type) (body : Z → M A) (r : A) (h1 : mem) (v1 : vehicle_prop_value_t)
     (bs : list byte),
     body this h0 = Done r h1 →
     live_value (objs h1) this v1 →
     is_buffer_type (value_type v1) = true →
     live_bytes (objs h1) (data (buf v1)) bs →
     ScopedVehiclePropValue.scope this body h
       = Done r {| objs := delete (data (buf v1)) (objs h1); oom := oom h1;
                   trace := trace h1 ++ [EvDelete (data (buf v1))] |}).
Proof.
  intros [N L] h0.
  assert (C : ScopedVehiclePropValue.ctor this h = Done tt h0).
  { unfold ScopedVehiclePropValue.ctor. by rewrite (store_value_live _ _ _ _ N L). }
  assert (L0 : live_value (objs h0) this zero_value).
  { split; [done|]. unfold h0. simpl. by rewrite lookup_insert_eq. }
  split; [done|]. split; [done|]. split; [|split].
  - unfold ScopedVehiclePropValue.dtor.
    destruct (is_buffer_type (value_type zero_value)) eqn:T.
    + by rewrite (deleteMembers_of_buffer this zero_value).
    + by rewrite (deleteMembers_of_scalar this zero_value).
  - intros A body r h1 B. unfold ScopedVehiclePropValue.scope, bind.
    by rewrite C, B.
  - intros A body r h1 v1 bs B L1 T [Nb Lb].
    unfold ScopedVehiclePropValue.scope, ScopedVehiclePropValue.dtor, bind.
    rewrite C, B, (deleteMembers_of_buffer this v1) by done.
    unfold delete_array. by rewrite (delete_kind_live _ _ (Bytes bs)).
Qed.

Lemma ScopedVehiclePropValue_contract_witness :
  let h0 := set_objs (<[9 := PropValue zero_value]> (objs store_float)) store_float in
  ScopedVehiclePropValue.ctor 9 store_float = Done tt h0 ∧
  (prop zero_value = 0 ∧ value_type zero_value = 0 ∧ timestamp zero_value = 0 ∧
   zone zero_value = 0 ∧ data (buf zero_value) = NULL ∧ len (buf zero_value) = 0) ∧
  ScopedVehiclePropValue.dtor (H := shipped) 9 h0 = Done tt h0 ∧
  (∀ (A : Type) (body : Z → M A) (r : A) (h1 : mem),
     body 9 h0 = Done r h1 →
     ScopedVehiclePropValue.scope (H := shipped) 9 body store_float
       = (VehiclePropValueUtil.deleteMembers (H := shipped) 9 ;; ret r) h1) ∧
  (∀ (A : Type) (body : Z → M A) (r : A) (h1 : mem) (v1 : vehicle_prop_value_t)
     (bs : list byte),
     body 9 h0 = Done r h1 →
     live_value (objs h1) 9 v1 →
     is_buffer_type (H := shipped) (value_type v1) = true →
     live_bytes (objs h1) (data (buf v1)) bs →
     ScopedVehiclePropValue.scope (H := shipped) 9 body store_float
       = Done r {| objs := delete (data (buf v1)) (objs h1); oom := oom h1;
                   trace := trace h1 ++ [EvDelete (data (buf v1))] |}).
Proof.
  apply (ScopedVehiclePropValue_contract (H := shipped) 9 float_dest store_float).
  split; [discriminate | reflexivity].
Defined.

(** A scope that copies ["ABC"] into its value and returns the status: on
    exit the copy's buffer, allocated at address 10, is deleted, once. *)
Lemma ScopedVehiclePropValue_scope_sample :
  ∃ h', ScopedVehiclePropValue.scope (H := shipped) 9
          (fun this =>
             VehiclePropValueUtil.copyVehicleProp (H := shipped) this abc_source false)
          store_float = Done NO_ERROR h' ∧
        trace h' = [EvNew 10; EvDelete 10] ∧
        objs h' !! 10 = None.
Proof. eexists. vm_compute. repeat split. Qed.

(** ** [allocVehicleProp] *)

Section Alloc.
Context `{Build}.

Lemma nth_tail (l : list bool) : nth 0 (tail l) false = nth 1 l false.
Proof. by destruct l. Qed.

Lemma needs_buffer_true (v : vehicle_prop_value_t) :
  needs_buffer v = true ↔ is_buffer_type (value_type v) = true ∧ 0 < len (buf v).
Proof. unfold needs_buffer. by rewrite andb_true_iff, Z.ltb_lt. Qed.

(** Once the record is allocated, [allocVehicleProp] is the copy into it
    followed by the test of the status. *)
Lemma allocVehicleProp_record_granted (v : vehicle_prop_value_t) (h : mem) :
  nth 0 (oom h) false = false →
  VehiclePropValueUtil.allocVehicleProp v h
    = (r <- copy_payload (fresh_addr (objs h)) v ;
       if negb (status_eqb r NO_ERROR)
       then delete_value (fresh_addr (objs h)) ;; ret (VehiclePropValueUtil.RetPtr NULL)
       else ret (VehiclePropValueUtil.RetPtr (fresh_addr (objs h))))
        {| objs := <[fresh_addr (objs h) := PropValue zero_value]> (objs h);
           oom := tail (oom h);
           trace := trace h ++ [EvNew (fresh_addr (objs h))] |}.
Proof.
  intros O. unfold VehiclePropValueUtil.allocVehicleProp. unfold bind at 1.
  rewrite new_ok by done.
  pose proof (fresh_addr_not_null (objs h)) as Pn.
  unfold ASSERT_OR_HANDLE_NO_MEMORY. rewrite (eqb_NULL_false _ Pn).
  rewrite copyVehicleProp_split.
  assert (E : ∀ A (x : M A), (if ASSERT_ON_NO_MEMORY then x else x) = x)
    by (by intros; destruct ASSERT_ON_NO_MEMORY).
  rewrite E. unfold bind.
  rewrite (load_value_live _ zero_value); [done|done|].
  simpl. by rewrite lookup_insert_eq.
Qed.

End Alloc.

Ltac no_buffer :=
  match goal with
  | Nb : needs_buffer _ = true |- _ =>
      apply needs_buffer_true in Nb as [? ?]; first [lia | congruence]
  end.

(** C4.  [allocVehicleProp] returns the address of a new record that is a
    deep copy of its argument when every allocation request is granted.
    When a request is refused, the header as shipped ([ASSERT_ON_NO_MEMORY]
    defined) terminates the process and returns nothing; built without the
    macro, a refused buffer request makes it return null after deleting the
    record it had allocated, so that the live objects are those from before
    the call. *)
Theorem allocVehicleProp_outcomes `{Build} (v : vehicle_prop_value_t)
    (bs : list byte) (h : mem) :
  (needs_buffer v = true →
   live_bytes (objs h) (data (buf v)) bs ∧ length bs = Z.to_nat (len (buf v))) →
  let p := fresh_addr (objs h) in
  (nth 0 (oom h) false = false →
   (needs_buffer v = true → nth 1 (oom h) false = false) →
   ∃ h' c,
     VehiclePropValueUtil.allocVehicleProp v h
       = Done (VehiclePropValueUtil.RetPtr p) h' ∧
     p ≠ NULL ∧ objs h !! p = None ∧
     live_value (objs h') p c ∧
     prop c = prop v ∧ value_type c = value_type v ∧
     timestamp c = timestamp v ∧ zone c = zone v ∧ len (buf c) = len (buf v) ∧
     (needs_buffer v = true →
      data (buf c) ≠ data (buf v) ∧ objs h !! data (buf c) = None ∧
      live_bytes (objs h') (data (buf c)) bs) ∧
     (is_buffer_type (value_type v) = true → len (buf v) <= 0 →
      data (buf c) = NULL) ∧
     (is_buffer_type (value_type v) = false → c = v)) ∧
  (ASSERT_ON_NO_MEMORY = true →
   nth 0 (oom h) false = true ∨
   (needs_buffer v = true ∧ nth 1 (oom h) false = true) →
   VehiclePropValueUtil.allocVehicleProp v h = Abort) ∧
  (ASSERT_ON_NO_MEMORY = false →
   nth 0 (oom h) false = false →
   needs_buffer v = true →
   nth 1 (oom h) false = true →
   VehiclePropValueUtil.allocVehicleProp v h
     = Done (VehiclePropValueUtil.RetPtr NULL)
         {| objs := objs h; oom := tail (tail (oom h));
            trace := trace h ++ [EvNew p; EvDelete p] |}).
Proof.
  intros Src p.
  pose proof (fresh_addr_not_null (objs h)) as Pn.
  pose proof (fresh_addr_free (objs h)) as Pf.
  set (m1 := {| objs := <[p := PropValue zero_value]> (objs h);
                oom := tail (oom h); trace := trace h ++ [EvNew p] |}).
  assert (L1 : live_value (objs m1) p zero_value).
  { split; [done|]. simpl. by rewrite lookup_insert_eq. }
  split; [|split].
  - intros O0 O1. rewrite allocVehicleProp_record_granted by done.
    fold p m1. unfold bind.
    destruct (is_buffer_type (value_type v)) eqn:T.
    + destruct (Z.lt_ge_cases 0 (len (buf v))) as [Lpos|Lneg].
      * assert (Nb : needs_buffer v = true) by (by apply needs_buffer_true).
        destruct (Src Nb) as [[Ns Ls] Len].
        assert (Sp : data (buf v) ≠ p).
        { intros E. rewrite E in Ls. unfold p in Ls. congruence. }
        assert (S1 : live_bytes (objs m1) (data (buf v)) bs).
        { split; [done|]. simpl. by rewrite lookup_insert_ne. }
        rewrite (copy_payload_buffer _ _ _ _ _ L1 T Lpos S1 Len)
          by (simpl; rewrite nth_tail; auto).
        simpl. set (q := fresh_addr (objs m1)).
        assert (Qp : q ≠ p) by (by apply (fresh_addr_ne _ _ (PropValue zero_value)), L1).
        assert (Qs : q ≠ data (buf v)) by (by apply (fresh_addr_ne _ _ (Bytes bs)), S1).
        assert (Qf : objs h !! q = None).
        { pose proof (fresh_addr_free (objs m1)) as F. fold q in F. simpl in F.
          by rewrite lookup_insert_ne in F. }
        eexists _, (set_data v q). split; [reflexivity|]. simpl.
        repeat split; try done;
          first [ by rewrite lookup_insert_ne, lookup_insert_eq
                | by rewrite lookup_insert_eq
                | apply fresh_addr_not_null | lia | congruence ].
      * rewrite (copy_payload_empty _ _ _ _ L1 T Lneg). simpl.
        eexists _, (set_data v NULL). split; [reflexivity|]. simpl.
        repeat split; try done;
          first [ by rewrite lookup_insert_eq | congruence | no_buffer ].
    + rewrite (copy_payload_scalar _ _ _ _ L1 T). simpl.
      eexists _, v. split; [reflexivity|]. simpl.
      repeat split; try done;
        first [ by rewrite lookup_insert_eq | congruence | no_buffer ].
  - intros A [O0|[Nb O1]].
    + unfold VehiclePropValueUtil.allocVehicleProp, bind.
      rewrite new_fails by done. unfold ASSERT_OR_HANDLE_NO_MEMORY. by rewrite A.
    + destruct (nth 0 (oom h) false) eqn:O0.
      * unfold VehiclePropValueUtil.allocVehicleProp, bind.
        rewrite new_fails by done. unfold ASSERT_OR_HANDLE_NO_MEMORY. by rewrite A.
      * rewrite allocVehicleProp_record_granted by done.
        fold p m1. unfold bind.
        apply needs_buffer_true in Nb as [T Lpos].
        rewrite (copy_payload_no_memory_abort _ _ _ _ A L1 T Lpos); [done|].
        simpl. by rewrite nth_tail.
  - intros A O0 Nb O1.
    rewrite allocVehicleProp_record_granted by done.
    fold p m1. unfold bind.
    apply needs_buffer_true in Nb as [T Lpos].
    rewrite (copy_payload_no_memory_propagate _ _ _ _ A L1 T Lpos)
      by (simpl; by rewrite nth_tail).
    simpl. unfold delete_value.
    rewrite (delete_kind_live _ _ (PropValue (set_data v NULL)));
      [|done|by simpl; rewrite lookup_insert_eq|done].
    unfold ret. simpl. f_equal. f_equal.
    + apply map_eq. intros k. rewrite lookup_delete, !lookup_insert.
      repeat case_decide; subst; unfold p in *; congruence.
    + by rewrite <- app_assoc.
Qed.

Lemma allocVehicleProp_outcomes_witness :
  let v := abc_source in
  let bs := [x41; x42; x43] in
  let h := store_abc_oom [false; true] in
  let p := fresh_addr (objs h) in
  (nth 0 (oom h) false = false →
   (needs_buffer (H := propagating) v = true → nth 1 (oom h) false = false) →
   ∃ h' c,
     VehiclePropValueUtil.allocVehicleProp (H := propagating) v h
       = Done (VehiclePropValueUtil.RetPtr p) h' ∧
     p ≠ NULL ∧ objs h !! p = None ∧
     live_value (objs h') p c ∧
     prop c = prop v ∧ value_type c = value_type v ∧
     timestamp c = timestamp v ∧ zone c = zone v ∧ len (buf c) = len (buf v) ∧
     (needs_buffer (H := propagating) v = true →
      data (buf c) ≠ data (buf v) ∧ objs h !! data (buf c) = None ∧
      live_bytes (objs h') (data (buf c)) bs) ∧
     (is_buffer_type (H := propagating) (value_type v) = true → len (buf v) <= 0 →
      data (buf c) = NULL) ∧
     (is_buffer_type (H := propagating) (value_type v) = false → c = v)) ∧
  (ASSERT_ON_NO_MEMORY (Build := propagating) = true →
   nth 0 (oom h) false = true ∨
   (needs_buffer (H := propagating) v = true ∧ nth 1 (oom h) false = true) →
   VehiclePropValueUtil.allocVehicleProp (H := propagating) v h = Abort) ∧
  (ASSERT_ON_NO_MEMORY (Build := propagating) = false →
   nth 0 (oom h) false = false →
   needs_buffer (H := propagating) v = true →
   nth 1 (oom h) false = true →
   VehiclePropValueUtil.allocVehicleProp (H := propagating) v h
     = Done (VehiclePropValueUtil.RetPtr NULL)
         {| objs := objs h; oom := tail (tail (oom h));
            trace := trace h ++ [EvNew p; EvDelete p] |}).
Proof.
  apply (allocVehicleProp_outcomes (H := propagating) abc_source [x41; x42; x43]
           (store_abc_oom [false; true])).
  intros _. split; [split; [discriminate | reflexivity] | reflexivity].
Defined.

(** C4 as stated fails on the header as shipped: when the request for the
    record is refused the call does not return, neither a copy nor null. *)
Lemma allocVehicleProp_refused_does_not_return :
  VehiclePropValueUtil.allocVehicleProp (H := shipped) abc_source (store_abc_oom [true])
    = Abort ∧
  ¬ ∃ r h',
      VehiclePropValueUtil.allocVehicleProp (H := shipped) abc_source
        (store_abc_oom [true]) = Done r h'.
Proof.
  split; [vm_compute; reflexivity|].
  intros (r & h' & E). vm_compute in E. discriminate.
Qed.

(** The three outcomes at the sample store: the copy at address 10 with its
    buffer at 11; the abort of the shipped header; the null of the build
    without the macro, with the record allocated and deleted again. *)
Lemma allocVehicleProp_samples :
  (∃ h', VehiclePropValueUtil.allocVehicleProp (H := shipped) abc_source
           (store_abc_oom []) = Done (VehiclePropValueUtil.RetPtr 10) h' ∧
         objs h' !! 10 = Some (PropValue (set_data abc_source 11)) ∧
         objs h' !! 11 = Some (Bytes [x41; x42; x43]) ∧
         trace h' = [EvNew 10; EvNew 11]) ∧
  VehiclePropValueUtil.allocVehicleProp (H := shipped) abc_source
    (store_abc_oom [false; true]) = Abort ∧
  VehiclePropValueUtil.allocVehicleProp (H := propagating) abc_source
    (store_abc_oom [false; true])
    = Done (VehiclePropValueUtil.RetPtr NULL)
        {| objs := objs store_abc; oom := []; trace := [EvNew 10; EvDelete 10] |}.
Proof.
  split; [|split].
  - eexists. vm_compute. repeat split.
  - vm_compute. reflexivity.
  - vm_compute. reflexivity.
Qed.

(** ** The allocation-failure policy *)

(** Both allocation sites of the header go through the same macro; in
    [copyVehicleProp] a refused request aborts the process in a build with
    [ASSERT_ON_NO_MEMORY] and returns [NO_MEMORY] in a build without it, the
    destination then holding the source's fields with a null buffer. *)
Lemma copyVehicleProp_refused `{Build} (dest : Z) (d0 src : vehicle_prop_value_t)
    (deleteOldData : bool) (h : mem) :
  live_value (objs h) dest d0 →
  release_defined (objs h) deleteOldData d0 →
  needs_buffer src = true →
  nth 0 (oom h) false = true →
  (ASSERT_ON_NO_MEMORY = true →
   VehiclePropValueUtil.copyVehicleProp dest src deleteOldData h = Abort) ∧
  (ASSERT_ON_NO_MEMORY = false →
   VehiclePropValueUtil.copyVehicleProp dest src deleteOldData h
     = Done NO_MEMORY
         {| objs := <[dest := PropValue (set_data src NULL)]>
                      (objs (after_release deleteOldData d0 h));
            oom := tail (oom h);
            trace := trace (after_release deleteOldData d0 h) |}).
Proof.
  intros [N L] R Nb O.
  pose proof (released_is_not_a_record _ _ _ _ _ R L) as RD.
  apply needs_buffer_true in Nb as [T Lpos].
  set (m1 := after_release deleteOldData d0 h).
  assert (L1 : live_value (objs m1) dest d0).
  { split; [done|]. unfold m1. by rewrite after_release_lookup. }
  assert (O1 : nth 0 (oom m1) false = true).
  { unfold m1. by rewrite after_release_oom. }
  assert (E : VehiclePropValueUtil.copyVehicleProp dest src deleteOldData h
              = copy_payload dest src m1).
  { rewrite copyVehicleProp_split. unfold bind at 1.
    rewrite (load_value_live _ _ _ N L). unfold bind.
    by rewrite (release_step _ _ _ R). }
  rewrite E. split; intros A.
  - by apply (copy_payload_no_memory_abort dest d0).
  - rewrite (copy_payload_no_memory_propagate dest d0) by done.
    unfold m1. by rewrite after_release_oom.
Qed.

(** C9.  In a build without [ASSERT_ON_NO_MEMORY], when the request for the
    record is refused [allocVehicleProp] hands back the status [NO_MEMORY],
    the action of line 149, and not a null pointer; memory is as before. *)
Theorem allocVehicleProp_record_refused `{Build} (v : vehicle_prop_value_t) (h : mem) :
  ASSERT_ON_NO_MEMORY = false →
  nth 0 (oom h) false = true →
  VehiclePropValueUtil.allocVehicleProp v h
    = Done (VehiclePropValueUtil.RetStatus NO_MEMORY)
        {| objs := objs h; oom := tail (oom h); trace := trace h |} ∧
  ∀ h', VehiclePropValueUtil.allocVehicleProp v h
          ≠ Done (VehiclePropValueUtil.RetPtr NULL) h'.
Proof.
  intros A O.
  assert (E : VehiclePropValueUtil.allocVehicleProp v h
              = Done (VehiclePropValueUtil.RetStatus NO_MEMORY)
                  {| objs := objs h; oom := tail (oom h); trace := trace h |}).
  { unfold VehiclePropValueUtil.allocVehicleProp, bind.
    rewrite new_fails by done. unfold ASSERT_OR_HANDLE_NO_MEMORY. by rewrite A. }
  split; [done|]. intros h'. rewrite E. discriminate.
Qed.

Lemma allocVehicleProp_record_refused_witness :
  VehiclePropValueUtil.allocVehicleProp (H := propagating) abc_source
    (store_abc_oom [true])
    = Done (VehiclePropValueUtil.RetStatus NO_MEMORY)
        {| objs := objs (store_abc_oom [true]); oom := tail (oom (store_abc_oom [true]));
           trace := trace (store_abc_oom [true]) |} ∧
  ∀ h', VehiclePropValueUtil.allocVehicleProp (H := propagating) abc_source
          (store_abc_oom [true])
          ≠ Done (VehiclePropValueUtil.RetPtr NULL) h'.
Proof.
  apply (allocVehicleProp_record_refused (H := propagating) abc_source
           (store_abc_oom [true])); reflexivity.
Defined.

(** ** Destruction of the containers *)

Lemma mem_eta (h : mem) :
  {| objs := objs h; oom := oom h; trace := trace h ++ [] |} = h.
Proof. destruct h. simpl. by rewrite app_nil_r. Qed.

Lemma remove_all_app (a b : list Z) (o : gmap Z block) :
  remove_all (a ++ b) o = remove_all b (remove_all a o).
Proof. apply foldl_app. Qed.

Lemma lookup_remove_all (fp : list Z) (o : gmap Z block) (p : Z) :
  remove_all fp o !! p = if bool_decide (p ∈ fp) then None else o !! p.
Proof.
  revert o. induction fp as [|a fp IH]; intros o.
  - rewrite bool_decide_eq_false_2; [done|]. apply not_elem_of_nil.
  - change (remove_all (a :: fp) o) with (remove_all fp (delete a o)).
    rewrite IH. destruct (decide (p = a)) as [->|Na].
    + rewrite (bool_decide_eq_true_2 (a ∈ a :: fp)) by apply list_elem_of_here.
      rewrite lookup_delete_eq. by case_bool_decide.
    + rewrite lookup_delete_ne by done.
      destruct (decide (p ∈ fp)) as [I|I].
      * rewrite !bool_decide_eq_true_2; [done| |done].
        by apply list_elem_of_further.
      * rewrite !bool_decide_eq_false_2; [done| |done].
        intros [?|?]%elem_of_cons; done.
Qed.

Lemma size_remove_all (fp : list Z) (o : gmap Z block) :
  NoDup fp → Forall (fun p => is_Some (o !! p)) fp →
  (size (remove_all fp o) + length fp)%nat = size o.
Proof.
  revert o. induction fp as [|a fp IH]; intros o ND Live; [simpl; lia|].
  apply NoDup_cons in ND as [Na ND]. apply Forall_cons in Live as [La Live].
  change (remove_all (a :: fp) o) with (remove_all fp (delete a o)).
  assert (S0 : size o ≠ 0%nat).
  { intros E. apply map_size_empty_iff in E. subst o.
    destruct La as [x La]. by rewrite lookup_empty in La. }
  assert (Live' : Forall (fun p => is_Some (delete a o !! p)) fp).
  { apply Forall_forall. intros x Ix.
    rewrite lookup_delete_ne; [by eapply Forall_forall in Live|].
    by intros ->. }
  specialize (IH (delete a o) ND Live').
  rewrite map_size_delete_Some in IH by done. simpl. lia.
Qed.

Lemma str_footprint_null (s : vehicle_str_t) : data s = NULL → str_footprint s = [].
Proof. intros E. unfold str_footprint. by rewrite E. Qed.

Lemma str_footprint_live (s : vehicle_str_t) :
  data s ≠ NULL → str_footprint s = [data s].
Proof. intros N. unfold str_footprint. by rewrite (eqb_NULL_false _ N). Qed.

Lemma delete_array_owned (s : vehicle_str_t) (h : mem) :
  str_owned (objs h) s →
  delete_array (data s) h
    = Done tt {| objs := remove_all (str_footprint s) (objs h); oom := oom h;
                 trace := trace h ++ map EvDelete (str_footprint s) |}.
Proof.
  intros [E|(_ & bs & [N L] & _)].
  - rewrite str_footprint_null by done. rewrite E. unfold delete_array.
    rewrite delete_kind_null. simpl. by rewrite mem_eta.
  - rewrite str_footprint_live by done.
    by apply (delete_kind_live _ _ (Bytes bs)).
Qed.

Lemma str_owned_live (o : gmap Z block) (s : vehicle_str_t) :
  str_owned o s → Forall (fun p => is_Some (o !! p)) (str_footprint s).
Proof.
  intros [E|(_ & bs & [N L] & _)].
  - rewrite str_footprint_null by done. constructor.
  - rewrite str_footprint_live by done. repeat constructor. eauto.
Qed.

Lemma str_owned_delete (o : gmap Z block) (s : vehicle_str_t) (a : Z) :
  str_owned o s → a ∉ str_footprint s → str_owned (delete a o) s.
Proof.
  intros [E|(P & bs & [N L] & Len)] Na; [by left|right].
  split; [done|]. exists bs. split; [|done]. split; [done|].
  rewrite lookup_delete_ne; [done|]. intros ->. apply Na.
  rewrite str_footprint_live by done. apply list_elem_of_here.
Qed.

Lemma remove_all_preserves (P : gmap Z block → Prop) (fp : list Z) (o : gmap Z block) :
  (∀ o' a, P o' → a ∈ fp → P (delete a o')) → P o → P (remove_all fp o).
Proof.
  revert o. induction fp as [|a fp IH]; intros o Step Po; [done|].
  change (remove_all (a :: fp) o) with (remove_all fp (delete a o)).
  apply IH.
  - intros o' b Po' Ib. apply Step; [done|]. by apply list_elem_of_further.
  - apply Step; [done|]. apply list_elem_of_here.
Qed.

Section Values.
Context `{Build}.

Lemma deleteMembers_owned (e : Z) (v : vehicle_prop_value_t) (h : mem) :
  live_value (objs h) e v →
  (is_buffer_type (value_type v) = true → str_owned (objs h) (buf v)) →
  VehiclePropValueUtil.deleteMembers e h
    = Done tt {| objs := remove_all (value_footprint v) (objs h); oom := oom h;
                 trace := trace h ++ map EvDelete (value_footprint v) |}.
Proof.
  intros L Own. unfold value_footprint.
  destruct (is_buffer_type (value_type v)) eqn:T.
  - rewrite (deleteMembers_of_buffer e v) by done.
    by apply (delete_array_owned (buf v)), Own.
  - rewrite (deleteMembers_of_scalar e v) by done. simpl. by rewrite mem_eta.
Qed.

Lemma owned_values_delete (o : gmap Z block) (l fp : list Z) (a : Z) :
  owned_values o l fp → a ∉ fp → owned_values (delete a o) l fp.
Proof.
  induction 1 as [|e v rest fp [N L] Own _ IH]; intros Na; [constructor|].
  apply not_elem_of_app in Na as [Nv Na].
  apply not_elem_of_cons in Na as [Ne Na].
  constructor; [| |by apply IH].
  - split; [done|]. by rewrite lookup_delete_ne.
  - intros T. apply str_owned_delete; [by apply Own|].
    unfold value_footprint in Nv. by rewrite T in Nv.
Qed.

Lemma owned_values_live (o : gmap Z block) (l fp : list Z) :
  owned_values o l fp → Forall (fun p => is_Some (o !! p)) fp.
Proof.
  induction 1 as [|e v rest fp [N L] Own _ IH]; [constructor|].
  apply Forall_app. split.
  - unfold value_footprint. destruct (is_buffer_type (value_type v)); [|constructor].
    by apply str_owned_live, Own.
  - constructor; [eauto|done].
Qed.

Lemma delete_each_owned (l : list Z) :
  ∀ (fp : list Z) (h : mem),
    owned_values (objs h) l fp → NoDup fp →
    VehiclePropValueListHolder.delete_each l h
      = Done tt {| objs := remove_all fp (objs h); oom := oom h;
                   trace := trace h ++ map EvDelete fp |}.
Proof.
  induction l as [|e rest IH]; intros fp h Own ND; inversion Own; subst.
  - simpl. unfold ret. by rewrite mem_eta.
  - match goal with
    | L : live_value _ e ?v, B : _ → str_owned _ _, R : owned_values _ rest ?fp0 |- _ =>
        rename L into Le, B into Ob, R into Or
    end.
    apply NoDup_app in ND as (NDv & Disj & NDe).
    apply NoDup_cons in NDe as [Ne ND0].
    assert (Nev : e ∉ value_footprint v).
    { intros I. apply (Disj _ I), list_elem_of_here. }
    simpl. unfold bind. rewrite (deleteMembers_owned e v) by done.
    unfold delete_value.
    rewrite (delete_kind_live _ _ (PropValue v));
      [|apply Le|simpl; rewrite lookup_remove_all, bool_decide_eq_false_2 by done; apply Le|done].
    rewrite (IH fp0); [|simpl|done].
    + simpl. rewrite remove_all_app, map_app. simpl.
      by rewrite <- !app_assoc.
    + apply owned_values_delete; [|done].
      apply (remove_all_preserves (fun o => owned_values o rest fp0)); [|done].
      intros o' a Po' Ia. apply owned_values_delete; [done|].
      intros I. apply (Disj _ Ia). by apply list_elem_of_further.
Qed.

End Values.

Section Configs.

Lemma config_deleteMembers_owned (e : Z) (c : vehicle_prop_config_t) (h : mem) :
  live_config (objs h) e c →
  str_owned (objs h) (config_string c) →
  VehiclePropertiesUtil.deleteMembers e h
    = Done tt {| objs := remove_all (config_footprint c) (objs h); oom := oom h;
                 trace := trace h ++ map EvDelete (config_footprint c) |}.
Proof.
  intros [N L] Own. unfold VehiclePropertiesUtil.deleteMembers, bind, config_footprint.
  rewrite (load_config_live _ _ _ N L).
  destruct Own as [E|(P & bs & [Nb Lb] & Len)].
  - rewrite str_footprint_null by done. rewrite E. simpl. unfold ret.
    by rewrite mem_eta.
  - rewrite str_footprint_live by done.
    rewrite (eqb_NULL_false _ Nb). simpl.
    replace (0 <? len (config_string c)) with true by (symmetry; by apply Z.ltb_lt).
    by apply (delete_kind_live _ _ (Bytes bs)).
Qed.

Lemma owned_configs_delete (o : gmap Z block) (l fp : list Z) (a : Z) :
  owned_configs o l fp → a ∉ fp → owned_configs (delete a o) l fp.
Proof.
  induction 1 as [|e c rest fp [N L] Own _ IH]; intros Na; [constructor|].
  apply not_elem_of_app in Na as [Nv Na].
  apply not_elem_of_cons in Na as [Ne Na].
  constructor; [| |by apply IH].
  - split; [done|]. by rewrite lookup_delete_ne.
  - by apply str_owned_delete.
Qed.

Lemma owned_configs_live (o : gmap Z block) (l fp : list Z) :
  owned_configs o l fp → Forall (fun p => is_Some (o !! p)) fp.
Proof.
  induction 1 as [|e c rest fp [N L] Own _ IH]; [constructor|].
  apply Forall_app. split; [by apply str_owned_live|].
  constructor; [eauto|done].
Qed.

Lemma config_delete_each_owned (l : list Z) :
  ∀ (fp : list Z) (h : mem),
    owned_configs (objs h) l fp → NoDup fp →
    VehiclePropertiesHolder.delete_each l h
      = Done tt {| objs := remove_all fp (objs h); oom := oom h;
                   trace := trace h ++ map EvDelete fp |}.
Proof.
  induction l as [|e rest IH]; intros fp h Own ND; inversion Own; subst.
  - simpl. unfold ret. by rewrite mem_eta.
  - match goal with
    | L : live_config _ e ?c, B : str_owned _ _, R : owned_configs _ rest ?fp0 |- _ =>
        rename L into Le, B into Ob, R into Or
    end.
    apply NoDup_app in ND as (NDv & Disj & NDe).
    apply NoDup_cons in NDe as [Ne ND0].
    assert (Nev : e ∉ config_footprint c).
    { intros I. apply (Disj _ I), list_elem_of_here. }
    simpl. unfold bind. rewrite (config_deleteMembers_owned e c) by done.
    unfold delete_config.
    rewrite (delete_kind_live _ _ (PropConfig c));
      [|apply Le|simpl; rewrite lookup_remove_all, bool_decide_eq_false_2 by done; apply Le|done].
    rewrite (IH fp0); [|simpl|done].
    + simpl. rewrite remove_all_app, map_app. simpl.
      by rewrite <- !app_assoc.
    + apply owned_configs_delete; [|done].
      apply (remove_all_preserves (fun o => owned_configs o rest fp0)); [|done].
      intros o' a Po' Ia. apply owned_configs_delete; [done|].
      intros I. apply (Disj _ Ia). by apply list_elem_of_further.
Qed.

Lemma populate_mList (l : list Z) (this : VehiclePropertiesHolder.t) :
  VehiclePropertiesHolder.mList (populate l this)
    = VehiclePropertiesHolder.mList this ++ l.
Proof.
  revert this. induction l as [|e l IH]; intros this; simpl.
  - by rewrite app_nil_r.
  - rewrite IH. simpl. by rewrite <- app_assoc.
Qed.

Lemma populate_flag (l : list Z) (this : VehiclePropertiesHolder.t) :
  VehiclePropertiesHolder.mDeleteConfigsInDestructor (populate l this)
    = VehiclePropertiesHolder.mDeleteConfigsInDestructor this.
Proof. revert this. induction l as [|e l IH]; intros this; simpl; [done|by rewrite IH]. Qed.

End Configs.

(** C6.  Destroying a holder built with its flag false returns with memory
    exactly as it was: no element record, no buffer or configuration string,
    and for [VehiclePropValueListHolder] not even the list object it points
    to, is deleted or written.  The [VehiclePropertiesHolder]'s own sequence
    is left as populated for the language to destroy with the object.  What
    the elements own can therefore still be released afterwards, record by
    record. *)
Theorem borrowing_holders_release_nothing `{Build} (lst : Z) (cl : list Z) (h : mem) :
  VehiclePropValueListHolder.dtor (VehiclePropValueListHolder.ctor lst false) h
    = Done tt h ∧
  VehiclePropertiesHolder.dtor (populate cl (VehiclePropertiesHolder.ctor false)) h
    = Done cl h ∧
  (∀ l fp, owned_values (objs h) l fp → NoDup fp →
     (VehiclePropValueListHolder.dtor (VehiclePropValueListHolder.ctor lst false) ;;
      VehiclePropValueListHolder.delete_each l) h
       = Done tt {| objs := remove_all fp (objs h); oom := oom h;
                    trace := trace h ++ map EvDelete fp |}) ∧
  (∀ cfp, owned_configs (objs h) cl cfp → NoDup cfp →
     (VehiclePropertiesHolder.dtor (populate cl (VehiclePropertiesHolder.ctor false)) ;;
      VehiclePropertiesHolder.delete_each cl) h
       = Done tt {| objs := remove_all cfp (objs h); oom := oom h;
                    trace := trace h ++ map EvDelete cfp |}).
Proof.
  assert (C : VehiclePropertiesHolder.dtor
                (populate cl (VehiclePropertiesHolder.ctor false)) h = Done cl h).
  { unfold VehiclePropertiesHolder.dtor. by rewrite populate_flag, populate_mList. }
  split; [reflexivity|]. split; [exact C|]. split.
  - intros l fp Own ND. unfold bind. simpl. by apply delete_each_owned.
  - intros cfp Own ND. unfold bind. rewrite C. by apply config_delete_each_owned.
Qed.

Lemma borrowing_holders_release_nothing_witness :
  VehiclePropValueListHolder.dtor (H := shipped)
    (VehiclePropValueListHolder.ctor 20 false) store_lists = Done tt store_lists ∧
  VehiclePropertiesHolder.dtor (populate [30; 32] (VehiclePropertiesHolder.ctor false))
    store_lists = Done [30; 32] store_lists ∧
  (VehiclePropValueListHolder.dtor (H := shipped)
     (VehiclePropValueListHolder.ctor 20 false) ;;
   VehiclePropValueListHolder.delete_each (H := shipped) [9; 12]) store_lists
    = Done tt {| objs := remove_all [8; 9; 12] (objs store_lists); oom := [];
                 trace := [EvDelete 8; EvDelete 9; EvDelete 12] |} ∧
  (VehiclePropertiesHolder.dtor (populate [30; 32] (VehiclePropertiesHolder.ctor false)) ;;
   VehiclePropertiesHolder.delete_each [30; 32]) store_lists
    = Done tt {| objs := remove_all [31; 30; 32] (objs store_lists); oom := [];
                 trace := [EvDelete 31; EvDelete 30; EvDelete 32] |}.
Proof.
  destruct (borrowing_holders_release_nothing (H := shipped) 20 [30; 32] store_lists)
    as (V & C & FV & FC).
  split; [exact V|]. split; [exact C|]. split.
  - apply (FV [9; 12] [8; 9; 12]).
    + apply (owned_values_cons (H := shipped) _ 9 bytes_dest [12] [12]).
      * split; [discriminate | reflexivity].
      * intros _. right. split; [reflexivity|]. exists [x01; x02].
        split; [split; [discriminate | reflexivity] | reflexivity].
      * apply (owned_values_cons (H := shipped) _ 12 float_dest [] []).
        -- split; [discriminate | reflexivity].
        -- discriminate.
        -- constructor.
    + apply (bool_decide_unpack _). vm_compute. exact I.
  - apply (FC [31; 30; 32]).
    + apply (owned_configs_cons _ 30 config_with_string [32] [32]).
      * split; [discriminate | reflexivity].
      * right. split; [reflexivity|]. exists [x41; x42].
        split; [split; [discriminate | reflexivity] | reflexivity].
      * apply (owned_configs_cons _ 32 config_plain [] []).
        -- split; [discriminate | reflexivity].
        -- by left.
        -- constructor.
    + apply (bool_decide_unpack _). vm_compute. exact I.
Defined.

(** The owning loops under the weakest ownership they need. *)

Section Held.
Context `{Build}.

Lemma deleteMembers_held (e : Z) (v : vehicle_prop_value_t) (h : mem) :
  live_value (objs h) e v →
  (∀ a, a ∈ value_footprint v → ∃ bs, live_bytes (objs h) a bs) →
  VehiclePropValueUtil.deleteMembers e h
    = Done tt {| objs := remove_all (value_footprint v) (objs h); oom := oom h;
                 trace := trace h ++ map EvDelete (value_footprint v) |}.
Proof.
  intros L Held. unfold value_footprint in *.
  destruct (is_buffer_type (value_type v)) eqn:T.
  - rewrite (deleteMembers_of_buffer e v) by done.
    destruct (decide (data (buf v) = NULL)) as [E|N].
    + rewrite str_footprint_null by done. rewrite E. unfold delete_array.
      rewrite delete_kind_null. simpl. by rewrite mem_eta.
    + rewrite str_footprint_live in * by done.
      destruct (Held (data (buf v))) as (bs & Nb & Lb); [apply list_elem_of_here|].
      by apply (delete_kind_live _ _ (Bytes bs)).
  - rewrite (deleteMembers_of_scalar e v) by done. simpl. by rewrite mem_eta.
Qed.

Lemma held_values_delete (o : gmap Z block) (l fp : list Z) (a : Z) :
  held_values o l fp → a ∉ fp → held_values (delete a o) l fp.
Proof.
  induction 1 as [|e v rest fp [N L] Held _ IH]; intros Na; [constructor|].
  apply not_elem_of_app in Na as [Nv Na].
  apply not_elem_of_cons in Na as [Ne Na].
  constructor; [| |by apply IH].
  - split; [done|]. by rewrite lookup_delete_ne.
  - intros x Ix. destruct (Held x Ix) as (bs & Nb & Lb). exists bs.
    split; [done|]. rewrite lookup_delete_ne; [done|]. by intros ->.
Qed.

Lemma held_values_live (o : gmap Z block) (l fp : list Z) :
  held_values o l fp → Forall (fun p => is_Some (o !! p)) fp.
Proof.
  induction 1 as [|e v rest fp [N L] Held _ IH]; [constructor|].
  apply Forall_app. split.
  - apply Forall_forall. intros x Ix. destruct (Held x Ix) as (bs & _ & Lb). eauto.
  - constructor; [eauto|done].
Qed.

Lemma delete_each_held (l : list Z) :
  ∀ (fp : list Z) (h : mem),
    held_values (objs h) l fp → NoDup fp →
    VehiclePropValueListHolder.delete_each l h
      = Done tt {| objs := remove_all fp (objs h); oom := oom h;
                   trace := trace h ++ map EvDelete fp |}.
Proof.
  induction l as [|e rest IH]; intros fp h Held ND; inversion Held; subst.
  - simpl. unfold ret. by rewrite mem_eta.
  - match goal with
    | L : live_value _ e ?v, B : ∀ a, _ → ∃ bs, _, R : held_values _ rest ?fp0 |- _ =>
        rename L into Le, B into Hb, R into Hr
    end.
    apply NoDup_app in ND as (NDv & Disj & NDe).
    apply NoDup_cons in NDe as [Ne ND0].
    assert (Nev : e ∉ value_footprint v).
    { intros I. apply (Disj _ I), list_elem_of_here. }
    simpl. unfold bind. rewrite (deleteMembers_held e v) by done.
    unfold delete_value.
    rewrite (delete_kind_live _ _ (PropValue v));
      [|apply Le|simpl; rewrite lookup_remove_all, bool_decide_eq_false_2 by done; apply Le|done].
    rewrite (IH fp0); [|simpl|done].
    + simpl. rewrite remove_all_app, map_app. simpl.
      by rewrite <- !app_assoc.
    + apply held_values_delete; [|done].
      apply (remove_all_preserves (fun o => held_values o rest fp0)); [|done].
      intros o' a Po' Ia. apply held_values_delete; [done|].
      intros I. apply (Disj _ Ia). by apply list_elem_of_further.
Qed.

Lemma config_deleteMembers_held (e : Z) (c : vehicle_prop_config_t) (h : mem) :
  live_config (objs h) e c →
  (∀ a, a ∈ config_released c → ∃ bs, live_bytes (objs h) a bs) →
  VehiclePropertiesUtil.deleteMembers e h
    = Done tt {| objs := remove_all (config_released c) (objs h); oom := oom h;
                 trace := trace h ++ map EvDelete (config_released c) |}.
Proof.
  intros [N L] Held. unfold VehiclePropertiesUtil.deleteMembers, bind.
  rewrite (load_config_live _ _ _ N L). unfold config_released in *.
  destruct (negb (data (config_string c) =? NULL) && (0 <? len (config_string c))).
  - destruct (Held (data (config_string c))) as (bs & Nb & Lb);
      [apply list_elem_of_here|].
    by apply (delete_kind_live _ _ (Bytes bs)).
  - unfold ret. simpl. by rewrite mem_eta.
Qed.

Lemma held_configs_delete (o : gmap Z block) (l fp : list Z) (a : Z) :
  held_configs o l fp → a ∉ fp → held_configs (delete a o) l fp.
Proof.
  induction 1 as [|e c rest fp [N L] Held _ IH]; intros Na; [constructor|].
  apply not_elem_of_app in Na as [Nv Na].
  apply not_elem_of_cons in Na as [Ne Na].
  constructor; [| |by apply IH].
  - split; [done|]. by rewrite lookup_delete_ne.
  - intros x Ix. destruct (Held x Ix) as (bs & Nb & Lb). exists bs.
    split; [done|]. rewrite lookup_delete_ne; [done|]. by intros ->.
Qed.

Lemma held_configs_live (o : gmap Z block) (l fp : list Z) :
  held_configs o l fp → Forall (fun p => is_Some (o !! p)) fp.
Proof.
  induction 1 as [|e c rest fp [N L] Held _ IH]; [constructor|].
  apply Forall_app. split.
  - apply Forall_forall. intros x Ix. destruct (Held x Ix) as (bs & _ & Lb). eauto.
  - constructor; [eauto|done].
Qed.

Lemma config_delete_each_held (l : list Z) :
  ∀ (fp : list Z) (h : mem),
    held_configs (objs h) l fp → NoDup fp →
    VehiclePropertiesHolder.delete_each l h
      = Done tt {| objs := remove_all fp (objs h); oom := oom h;
                   trace := trace h ++ map EvDelete fp |}.
Proof.
  induction l as [|e rest IH]; intros fp h Held ND; inversion Held; subst.
  - simpl. unfold ret. by rewrite mem_eta.
  - match goal with
    | L : live_config _ e ?c, B : ∀ a, _ → ∃ bs, _, R : held_configs _ rest ?fp0 |- _ =>
        rename L into Le, B into Hb, R into Hr
    end.
    apply NoDup_app in ND as (NDv & Disj & NDe).
    apply NoDup_cons in NDe as [Ne ND0].
    assert (Nev : e ∉ config_released c).
    { intros I. apply (Disj _ I), list_elem_of_here. }
    simpl. unfold bind. rewrite (config_deleteMembers_held e c) by done.
    unfold delete_config.
    rewrite (delete_kind_live _ _ (PropConfig c));
      [|apply Le|simpl; rewrite lookup_remove_all, bool_decide_eq_false_2 by done; apply Le|done].
    rewrite (IH fp0); [|simpl|done].
    + simpl. rewrite remove_all_app, map_app. simpl.
      by rewrite <- !app_assoc.
    + apply held_configs_delete; [|done].
      apply (remove_all_preserves (fun o => held_configs o rest fp0)); [|done].
      intros o' a Po' Ia. apply held_configs_delete; [done|].
      intros I. apply (Disj _ Ia). by apply list_elem_of_further.
Qed.

End Held.

(** C7, as amended.  Destroying a holder built with its flag true, whose
    entries are live records with distinct allocations, deletes for each
    entry in turn what the record holds and then the record, and at the end
    the list object (the [VehiclePropertiesHolder] clears its sequence
    instead); each of these allocations is deleted once, none of them is
    live afterwards, every other object is untouched, and the number of live
    objects drops by exactly their number.  A value record holds its buffer
    when its kind is STRING or BYTES and the pointer is not null, whatever
    the length; a configuration record holds its string only when the
    pointer is not null and the length is positive: a string of length zero
    or less behind a non-null pointer is among the untouched objects and
    stays allocated. *)
Theorem owning_holders_delete_what_is_held `{Build} (lst : Z) (l fp cl cfp : list Z)
    (h : mem) :
  lst ≠ NULL →
  objs h !! lst = Some (ValueList l) →
  held_values (objs h) l fp →
  NoDup (fp ++ [lst]) →
  held_configs (objs h) cl cfp →
  NoDup cfp →
  (VehiclePropValueListHolder.dtor (VehiclePropValueListHolder.ctor lst true) h
     = Done tt {| objs := remove_all (fp ++ [lst]) (objs h); oom := oom h;
                  trace := trace h ++ map EvDelete (fp ++ [lst]) |} ∧
   (∀ p, remove_all (fp ++ [lst]) (objs h) !! p
           = if bool_decide (p ∈ fp ++ [lst]) then None else objs h !! p) ∧
   (size (remove_all (fp ++ [lst]) (objs h)) + length (fp ++ [lst]))%nat
     = size (objs h)) ∧
  (VehiclePropertiesHolder.dtor (populate cl (VehiclePropertiesHolder.ctor true)) h
     = Done [] {| objs := remove_all cfp (objs h); oom := oom h;
                  trace := trace h ++ map EvDelete cfp |} ∧
   (∀ p, remove_all cfp (objs h) !! p
           = if bool_decide (p ∈ cfp) then None else objs h !! p) ∧
   (size (remove_all cfp (objs h)) + length cfp)%nat = size (objs h) ∧
   (∀ e c bs, e ∈ cl → live_config (objs h) e c →
      len (config_string c) <= 0 →
      live_bytes (objs h) (data (config_string c)) bs →
      data (config_string c) ∉ cfp →
      live_bytes (remove_all cfp (objs h)) (data (config_string c)) bs)).
Proof.
  intros N L Held ND CHeld CND. split; [split|split; [|split; [|split]]].
  - apply NoDup_app in ND as (ND & Disj & _).
    unfold VehiclePropValueListHolder.dtor. simpl.
    rewrite (eqb_NULL_false _ N). simpl. unfold bind.
    rewrite (load_list_live _ _ _ N L), (delete_each_held l fp) by done.
    unfold delete_list.
    rewrite (delete_kind_live _ _ (ValueList l)); [|done| |done].
    + simpl. rewrite remove_all_app, map_app. simpl. by rewrite <- app_assoc.
    + simpl. rewrite lookup_remove_all, bool_decide_eq_false_2; [done|].
      intros I. apply (Disj _ I), list_elem_of_here.
  - split; [intros p; apply lookup_remove_all|].
    apply size_remove_all; [done|].
    apply Forall_app. split; [by eapply held_values_live|].
    repeat constructor. eauto.
  - unfold VehiclePropertiesHolder.dtor.
    rewrite populate_flag, populate_mList. simpl. unfold bind.
    by rewrite (config_delete_each_held cl cfp).
  - intros p. apply lookup_remove_all.
  - apply size_remove_all; [done|]. by eapply held_configs_live.
  - intros e c bs _ _ _ [Nb Lb] Nf. split; [done|].
    by rewrite lookup_remove_all, bool_decide_eq_false_2.
Qed.

Lemma owning_holders_delete_what_is_held_witness :
  (VehiclePropValueListHolder.dtor (H := shipped)
     (VehiclePropValueListHolder.ctor 20 true) store_mixed
     = Done tt {| objs := remove_all ([8; 9; 12; 14; 13] ++ [20]) (objs store_mixed);
                  oom := oom store_mixed;
                  trace := trace store_mixed
                             ++ map EvDelete ([8; 9; 12; 14; 13] ++ [20]) |} ∧
   (∀ p, remove_all ([8; 9; 12; 14; 13] ++ [20]) (objs store_mixed) !! p
           = if bool_decide (p ∈ [8; 9; 12; 14; 13] ++ [20]) then None
             else objs store_mixed !! p) ∧
   Nat.add (size (remove_all ([8; 9; 12; 14; 13] ++ [20]) (objs store_mixed)))
           (length ([8; 9; 12; 14; 13] ++ [20])) = size (objs store_mixed)) ∧
  (VehiclePropertiesHolder.dtor
     (populate [30; 32; 33] (VehiclePropertiesHolder.ctor true)) store_mixed
     = Done [] {| objs := remove_all [31; 30; 32; 33] (objs store_mixed);
                  oom := oom store_mixed;
                  trace := trace store_mixed ++ map EvDelete [31; 30; 32; 33] |} ∧
   (∀ p, remove_all [31; 30; 32; 33] (objs store_mixed) !! p
           = if bool_decide (p ∈ [31; 30; 32; 33]) then None
             else objs store_mixed !! p) ∧
   Nat.add (size (remove_all [31; 30; 32; 33] (objs store_mixed)))
           (length [31; 30; 32; 33]) = size (objs store_mixed) ∧
   (∀ e c bs, e ∈ [30; 32; 33] → live_config (objs store_mixed) e c →
      len (config_string c) <= 0 →
      live_bytes (objs store_mixed) (data (config_string c)) bs →
      data (config_string c) ∉ [31; 30; 32; 33] →
      live_bytes (remove_all [31; 30; 32; 33] (objs store_mixed))
        (data (config_string c)) bs)).
Proof.
  apply (owning_holders_delete_what_is_held (H := shipped) 20 [9; 12; 13]
           [8; 9; 12; 14; 13] [30; 32; 33] [31; 30; 32; 33] store_mixed).
  - discriminate.
  - reflexivity.
  - apply (held_values_cons (H := shipped) _ 9 bytes_dest [12; 13] [12; 14; 13]).
    + split; [discriminate | reflexivity].
    + intros a ->%list_elem_of_singleton. exists [x01; x02].
      split; [discriminate | reflexivity].
    + apply (held_values_cons (H := shipped) _ 12 float_dest [13] [14; 13]).
      * split; [discriminate | reflexivity].
      * intros a I. by apply elem_of_nil in I.
      * apply (held_values_cons (H := shipped) _ 13 empty_array_value [] []).
        -- split; [discriminate | reflexivity].
        -- intros a ->%list_elem_of_singleton. exists [].
           split; [discriminate | reflexivity].
        -- constructor.
  - apply (bool_decide_unpack _). vm_compute. exact I.
  - apply (held_configs_cons _ 30 config_with_string [32; 33] [32; 33]).
    + split; [discriminate | reflexivity].
    + intros a ->%list_elem_of_singleton. exists [x41; x42].
      split; [discriminate | reflexivity].
    + apply (held_configs_cons _ 32 config_plain [33] [33]).
      * split; [discriminate | reflexivity].
      * intros a I. by apply elem_of_nil in I.
      * apply (held_configs_cons _ 33 config_empty_array [] []).
        -- split; [discriminate | reflexivity].
        -- intros a I. by apply elem_of_nil in I.
        -- constructor.
  - apply (bool_decide_unpack _). vm_compute. exact I.
Defined.

(** C7 as stated fails for a configuration whose string is a live array of
    length 0: the owning destructor deletes the record at 30 and nothing
    else, so the array at 5, allocated for that element, is still live and
    one object remains where there was none before the population. *)
Lemma owning_config_holder_keeps_empty_string :
  ∃ h',
    VehiclePropertiesHolder.dtor (populate [30] (VehiclePropertiesHolder.ctor true))
      store_empty_string = Done [] h' ∧
    deletes (trace h') = [30] ∧
    objs h' !! 5 = Some (Bytes []) ∧
    size (objs h') = 1%nat.
Proof. eexists. vm_compute. repeat split. Qed.

(** At the same time the owning value list does delete an empty array held
    by a STRING record: at [store_mixed] the array at 14 goes, the
    configuration's empty array at 34 stays. *)
Lemma owning_holders_mixed_sample :
  (∃ h', VehiclePropValueListHolder.dtor (H := shipped)
           (VehiclePropValueListHolder.ctor 20 true) store_mixed = Done tt h' ∧
         deletes (trace h') = [8; 9; 12; 14; 13; 20] ∧
         objs h' !! 14 = None) ∧
  (∃ h', VehiclePropertiesHolder.dtor
           (populate [30; 32; 33] (VehiclePropertiesHolder.ctor true)) store_mixed
           = Done [] h' ∧
         deletes (trace h') = [31; 30; 32; 33] ∧
         objs h' !! 34 = Some (Bytes [])).
Proof. split; eexists; vm_compute; repeat split. Qed.

(** The owning destructors at the sample store: four deletions in the order
    buffer, record, record, list, leaving the array at 5 and the
    configurations; three for the configurations. *)
Lemma owning_holders_sample :
  (∃ h', VehiclePropValueListHolder.dtor (H := shipped)
           (VehiclePropValueListHolder.ctor 20 true) store_lists = Done tt h' ∧
         trace h' = [EvDelete 8; EvDelete 9; EvDelete 12; EvDelete 20] ∧
         dom (objs h') = {[5; 30; 31; 32]}) ∧
  (∃ h', VehiclePropertiesHolder.dtor
           (populate [30; 32] (VehiclePropertiesHolder.ctor true)) store_lists
           = Done [] h' ∧
         trace h' = [EvDelete 31; EvDelete 30; EvDelete 32] ∧
         dom (objs h') = {[5; 8; 9; 12; 20]}).
Proof.
  split; eexists; (split; [vm_compute; reflexivity|]); split;
    [reflexivity | vm_compute; reflexivity | reflexivity | vm_compute; reflexivity].
Qed.


(** ** Further properties of [copyVehicleProp] *)

Section CopyMore.
Context `{Build}.

Lemma copyVehicleProp_after_release (dest : Z) (d0 src : vehicle_prop_value_t)
    (flag : bool) (h : mem) :
  live_value (objs h) dest d0 →
  release_defined (objs h) flag d0 →
  VehiclePropValueUtil.copyVehicleProp dest src flag h
    = copy_payload dest src (after_release flag d0 h).
Proof.
  intros [N L] R. rewrite copyVehicleProp_split. unfold bind at 1.
  rewrite (load_value_live _ _ _ N L). unfold bind.
  by rewrite (release_step _ _ _ R).
Qed.

Lemma after_release_live_value (dest : Z) (d0 : vehicle_prop_value_t)
    (flag : bool) (h : mem) :
  live_value (objs h) dest d0 →
  release_defined (objs h) flag d0 →
  live_value (objs (after_release flag d0 h)) dest d0.
Proof.
  intros [N L] R. split; [done|]. rewrite after_release_lookup; [done|].
  by apply (released_is_not_a_record _ _ _ d0 (objs h)).
Qed.


Lemma deletes_app (a b : list event) : deletes (a ++ b) = deletes a ++ deletes b.
Proof. unfold deletes. apply flat_map_app. Qed.

Lemma news_app (a b : list event) : news (a ++ b) = news a ++ news b.
Proof. unfold news. apply flat_map_app. Qed.

Lemma size_not_zero (o : gmap Z block) (p : Z) (b : block) :
  o !! p = Some b → size o ≠ 0%nat.
Proof.
  intros L E. apply map_size_empty_iff in E. subst o.
  by rewrite lookup_empty in L.
Qed.

End CopyMore.

(** X1.  A source of a scalar kind is copied field for field, payload bytes
    included, with no allocation request made, whatever the state of the
    allocator; every object other than the destination (and the old buffer,
    where line 125 released one) is left as it was. *)
Theorem copyVehicleProp_scalar_plain_copy `{Build} (dest : Z)
    (d0 src : vehicle_prop_value_t) (deleteOldData : bool) (h : mem) :
  live_value (objs h) dest d0 →
  release_defined (objs h) deleteOldData d0 →
  is_buffer_type (value_type src) = false →
  ∃ h',
    VehiclePropValueUtil.copyVehicleProp dest src deleteOldData h = Done NO_ERROR h' ∧
    live_value (objs h') dest src ∧
    oom h' = oom h ∧
    news (trace h') = news (trace h) ∧
    ∀ p, p ≠ dest →
         (old_buffer_released deleteOldData d0 = true → p ≠ data (buf d0)) →
         objs h' !! p = objs h !! p.
Proof.
  intros L R T.
  pose proof (after_release_live_value _ _ _ _ L R) as L1.
  rewrite (copyVehicleProp_after_release _ d0) by done.
  rewrite (copy_payload_scalar _ _ _ _ L1 T).
  eexists. split; [reflexivity|]. simpl. split; [|split; [|split]].
  - split; [apply L|]. by rewrite lookup_insert_eq.
  - apply after_release_oom.
  - apply after_release_news.
  - intros p Pd Pr. rewrite lookup_insert_ne by done.
    apply after_release_lookup. intros E Q. by apply (Pr E).
Qed.

Lemma copyVehicleProp_scalar_plain_copy_witness :
  ∃ h',
    VehiclePropValueUtil.copyVehicleProp (H := shipped) 9 float_dest true
      (store_abc_oom [true]) = Done NO_ERROR h' ∧
    live_value (objs h') 9 float_dest ∧
    oom h' = oom (store_abc_oom [true]) ∧
    news (trace h') = news (trace (store_abc_oom [true])) ∧
    ∀ p, p ≠ 9 →
         (old_buffer_released true bytes_dest = true → p ≠ data (buf bytes_dest)) →
         objs h' !! p = objs (store_abc_oom [true]) !! p.
Proof.
  apply (copyVehicleProp_scalar_plain_copy (H := shipped) 9 bytes_dest float_dest true
           (store_abc_oom [true])).
  - split; [discriminate | reflexivity].
  - intros _. eexists. reflexivity.
  - reflexivity.
Defined.

(** X2.  For a STRING or BYTES source with a negative length the copy
    succeeds without any allocation request: the destination gets a null
    buffer pointer, and the negative length is stored as it is. *)
Theorem copyVehicleProp_negative_length `{Build} (dest : Z)
    (d0 src : vehicle_prop_value_t) (deleteOldData : bool) (h : mem) :
  live_value (objs h) dest d0 →
  release_defined (objs h) deleteOldData d0 →
  is_buffer_type (value_type src) = true →
  len (buf src) < 0 →
  ∃ h' d',
    VehiclePropValueUtil.copyVehicleProp dest src deleteOldData h = Done NO_ERROR h' ∧
    live_value (objs h') dest d' ∧
    data (buf d') = NULL ∧
    len (buf d') = len (buf src) ∧
    value_type d' = value_type src ∧
    oom h' = oom h ∧
    news (trace h') = news (trace h).
Proof.
  intros L R T Neg.
  pose proof (after_release_live_value _ _ _ _ L R) as L1.
  rewrite (copyVehicleProp_after_release _ d0) by done.
  rewrite (copy_payload_empty _ _ _ _ L1 T) by lia.
  eexists _, (set_data src NULL). split; [reflexivity|]. simpl.
  split; [|split; [done|split; [done|split; [done|split]]]].
  - split; [apply L|]. by rewrite lookup_insert_eq.
  - apply after_release_oom.
  - apply after_release_news.
Qed.

Lemma copyVehicleProp_negative_length_witness :
  ∃ h' d',
    VehiclePropValueUtil.copyVehicleProp (H := shipped) 9 (set_len abc_source (-1)) false
      store_abc = Done NO_ERROR h' ∧
    live_value (objs h') 9 d' ∧
    data (buf d') = NULL ∧
    len (buf d') = len (buf (set_len abc_source (-1))) ∧
    value_type d' = value_type (set_len abc_source (-1)) ∧
    oom h' = oom store_abc ∧
    news (trace h') = news (trace store_abc).
Proof.
  apply (copyVehicleProp_negative_length (H := shipped) 9 bytes_dest
           (set_len abc_source (-1)) false store_abc).
  - split; [discriminate | reflexivity].
  - intros E. discriminate E.
  - reflexivity.
  - simpl. lia.
Defined.



(** X4.  With [deleteOldData] set, copying over a destination that holds a
    live buffer of positive length deletes that buffer first and allocates
    the new one afterwards: one deletion and then one allocation are logged,
    and the number of live objects is what it was. *)
Theorem copyVehicleProp_replaces_buffer `{Build} (dest : Z)
    (d0 src : vehicle_prop_value_t) (bs0 bs : list byte) (h : mem) :
  live_value (objs h) dest d0 →
  0 < len (buf d0) →
  live_bytes (objs h) (data (buf d0)) bs0 →
  data (buf d0) ≠ data (buf src) →
  is_buffer_type (value_type src) = true →
  0 < len (buf src) →
  live_bytes (objs h) (data (buf src)) bs →
  length bs = Z.to_nat (len (buf src)) →
  nth 0 (oom h) false = false →
  ∃ h' p,
    VehiclePropValueUtil.copyVehicleProp dest src true h = Done NO_ERROR h' ∧
    trace h' = trace h ++ [EvDelete (data (buf d0)); EvNew p] ∧
    live_value (objs h') dest (set_data src p) ∧
    live_bytes (objs h') p bs ∧
    size (objs h') = size (objs h).
Proof.
  intros L Lpos0 [N0 L0] Ne T Lpos [Ns Ls] Len O.
  assert (E : old_buffer_released true d0 = true).
  { unfold old_buffer_released. simpl. apply andb_true_iff.
    split; [by apply negb_true_iff, Z.eqb_neq | by apply Z.ltb_lt]. }
  assert (R : release_defined (objs h) true d0) by (intros _; eauto).
  assert (D0 : dest ≠ data (buf d0)).
  { intros Q. destruct L as [_ L]. rewrite Q, L0 in L. discriminate. }
  pose proof (after_release_live_value _ _ _ _ L R) as L1.
  rewrite (copyVehicleProp_after_release _ d0) by done.
  assert (S1 : live_bytes (objs (after_release true d0 h)) (data (buf src)) bs).
  { split; [done|]. by rewrite after_release_lookup. }
  rewrite (copy_payload_buffer _ _ _ _ _ L1 T Lpos S1 Len)
    by (by rewrite after_release_oom).
  unfold after_release in *. rewrite E in *. simpl in *.
  set (p := fresh_addr (delete (data (buf d0)) (objs h))).
  assert (Pd : p ≠ dest) by (by apply (fresh_addr_ne _ _ (PropValue d0)), L1).
  eexists _, p. split; [reflexivity|]. simpl.
  split; [by rewrite <- app_assoc|]. split; [|split].
  - split; [apply L|]. by rewrite lookup_insert_ne, lookup_insert_eq.
  - split; [apply fresh_addr_not_null|]. by rewrite lookup_insert_eq.
  - rewrite map_size_insert_None.
    + rewrite map_size_insert_Some by (destruct L1 as [_ L1]; eauto).
      rewrite map_size_delete_Some by eauto.
      pose proof (size_not_zero _ _ _ L0). lia.
    + rewrite lookup_insert_ne by done. apply fresh_addr_free.
Qed.

Lemma copyVehicleProp_replaces_buffer_witness :
  ∃ h' p,
    VehiclePropValueUtil.copyVehicleProp (H := shipped) 9 abc_source true store_abc
      = Done NO_ERROR h' ∧
    trace h' = trace store_abc ++ [EvDelete (data (buf bytes_dest)); EvNew p] ∧
    live_value (objs h') 9 (set_data abc_source p) ∧
    live_bytes (objs h') p [x41; x42; x43] ∧
    size (objs h') = size (objs store_abc).
Proof.
  apply (copyVehicleProp_replaces_buffer (H := shipped) 9 bytes_dest abc_source
           [x01; x02] [x41; x42; x43] store_abc).
  - split; [discriminate | reflexivity].
  - simpl. lia.
  - split; [discriminate | reflexivity].
  - discriminate.
  - reflexivity.
  - simpl. lia.
  - split; [discriminate | reflexivity].
  - reflexivity.
  - reflexivity.
Defined.


Lemma after_release_dom (flag : bool) (d : vehicle_prop_value_t) (m : mem) :
  dom (objs (after_release flag d m)) ⊆ dom (objs m).
Proof.
  unfold after_release. destruct (old_buffer_released flag d); [|done].
  simpl. rewrite dom_delete_L. intros x D. by apply elem_of_difference in D as [D _].
Qed.

(** X5.  In a build without [ASSERT_ON_NO_MEMORY], when the buffer request
    is refused the copy returns [NO_MEMORY] with the destination already
    overwritten: it holds the source's fields with a null buffer pointer
    next to the source's positive length.  Nothing was allocated, and
    [deleteMembers] on that destination is a harmless no-op. *)
Theorem copyVehicleProp_no_memory_state `{Build} (dest : Z)
    (d0 src : vehicle_prop_value_t) (deleteOldData : bool) (h : mem) :
  ASSERT_ON_NO_MEMORY = false →
  live_value (objs h) dest d0 →
  release_defined (objs h) deleteOldData d0 →
  needs_buffer src = true →
  nth 0 (oom h) false = true →
  ∃ h',
    VehiclePropValueUtil.copyVehicleProp dest src deleteOldData h = Done NO_MEMORY h' ∧
    live_value (objs h') dest (set_data src NULL) ∧
    0 < len (buf (set_data src NULL)) ∧
    news (trace h') = news (trace h) ∧
    dom (objs h') ⊆ dom (objs h) ∧
    VehiclePropValueUtil.deleteMembers dest h' = Done tt h'.
Proof.
  intros A L R Nb O.
  destruct (copyVehicleProp_refused dest d0 src deleteOldData h L R Nb O) as [_ E].
  rewrite (E A). apply needs_buffer_true in Nb as [T Lpos].
  eexists. split; [reflexivity|].
  assert (L' : live_value
                 (<[dest := PropValue (set_data src NULL)]>
                    (objs (after_release deleteOldData d0 h)))
                 dest (set_data src NULL)).
  { split; [apply L|]. by rewrite lookup_insert_eq. }
  simpl. split; [done|]. split; [done|]. split; [apply after_release_news|]. split.
  - rewrite dom_insert_L. intros x. rewrite elem_of_union, elem_of_singleton.
    intros [->|D]; [apply elem_of_dom; destruct L as [_ L]; eauto|].
    by apply (after_release_dom deleteOldData d0 h).
  - by rewrite (deleteMembers_of_buffer dest (set_data src NULL)).
Qed.

Lemma copyVehicleProp_no_memory_state_witness :
  ∃ h',
    VehiclePropValueUtil.copyVehicleProp (H := propagating) 9 abc_source true
      (store_abc_oom [true]) = Done NO_MEMORY h' ∧
    live_value (objs h') 9 (set_data abc_source NULL) ∧
    0 < len (buf (set_data abc_source NULL)) ∧
    news (trace h') = news (trace (store_abc_oom [true])) ∧
    dom (objs h') ⊆ dom (objs (store_abc_oom [true])) ∧
    VehiclePropValueUtil.deleteMembers (H := propagating) 9 h' = Done tt h'.
Proof.
  apply (copyVehicleProp_no_memory_state (H := propagating) 9 bytes_dest abc_source
           true (store_abc_oom [true])).
  - reflexivity.
  - split; [discriminate | reflexivity].
  - intros _. eexists. reflexivity.
  - reflexivity.
  - reflexivity.
Defined.

(** X7.  [deleteMembers] deletes the buffer of a STRING or BYTES record but
    leaves the record as it is, its pointer still holding the address just
    deleted; a second call on the same record is undefined behaviour. *)
Theorem deleteMembers_twice_undefined `{Build} (v : Z) (r : vehicle_prop_value_t)
    (bs : list byte) (h : mem) :
  live_value (objs h) v r →
  is_buffer_type (value_type r) = true →
  live_bytes (objs h) (data (buf r)) bs →
  ∃ h1,
    VehiclePropValueUtil.deleteMembers v h = Done tt h1 ∧
    live_value (objs h1) v r ∧
    objs h1 !! data (buf r) = None ∧
    VehiclePropValueUtil.deleteMembers v h1 = Undefined.
Proof.
  intros [N L] T [Nb Lb].
  assert (Dv : data (buf r) ≠ v).
  { intros E. rewrite E, L in Lb. discriminate. }
  rewrite (deleteMembers_of_buffer v r) by done.
  unfold delete_array. rewrite (delete_kind_live _ _ (Bytes bs)) by done.
  eexists. split; [reflexivity|]. simpl.
  assert (L1 : live_value (delete (data (buf r)) (objs h)) v r).
  { split; [done|]. by rewrite lookup_delete_ne. }
  split; [done|]. split; [apply lookup_delete_eq|].
  rewrite (deleteMembers_of_buffer v r) by done.
  apply delete_kind_dangling; [done|]. apply lookup_delete_eq.
Qed.

Lemma deleteMembers_twice_undefined_witness :
  ∃ h1,
    VehiclePropValueUtil.deleteMembers (H := shipped) 9 store_abc = Done tt h1 ∧
    live_value (objs h1) 9 bytes_dest ∧
    objs h1 !! data (buf bytes_dest) = None ∧
    VehiclePropValueUtil.deleteMembers (H := shipped) 9 h1 = Undefined.
Proof.
  apply (deleteMembers_twice_undefined (H := shipped) 9 bytes_dest [x01; x02] store_abc).
  - split; [discriminate | reflexivity].
  - reflexivity.
  - split; [discriminate | reflexivity].
Defined.

(** ** What the shipped build can return *)






(** ** Copies and their release *)

Lemma value_footprint_rev `{Build} (c : vehicle_prop_value_t) :
  rev (value_footprint c) = value_footprint c.
Proof.
  unfold value_footprint, str_footprint.
  by destruct (is_buffer_type (value_type c)), (data (buf c) =? NULL).
Qed.

Lemma news_map_EvNew (l : list Z) : news (map EvNew l) = l.
Proof. induction l as [|a l IH]; [done|]. simpl. by rewrite IH. Qed.

Lemma deletes_map_EvNew (l : list Z) : deletes (map EvNew l) = [].
Proof. induction l as [|a l IH]; [done|]. simpl. by rewrite IH. Qed.

Lemma news_map_EvDelete (l : list Z) : news (map EvDelete l) = [].
Proof. induction l as [|a l IH]; [done|]. simpl. by rewrite IH. Qed.

Lemma deletes_map_EvDelete (l : list Z) : deletes (map EvDelete l) = l.
Proof. induction l as [|a l IH]; [done|]. simpl. by rewrite IH. Qed.

(** When its requests are granted, [allocVehicleProp] yields an owned record:
    the record and its buffer, if any, are new allocations that follow the
    data model, and every other object is as before. *)
Lemma allocVehicleProp_granted `{Build} (v : vehicle_prop_value_t)
    (bs : list byte) (h : mem) :
  (needs_buffer v = true →
   live_bytes (objs h) (data (buf v)) bs ∧ length bs = Z.to_nat (len (buf v))) →
  nth 0 (oom h) false = false →
  (needs_buffer v = true → nth 1 (oom h) false = false) →
  ∃ c h1,
    VehiclePropValueUtil.allocVehicleProp v h
      = Done (VehiclePropValueUtil.RetPtr (fresh_addr (objs h))) h1 ∧
    live_value (objs h1) (fresh_addr (objs h)) c ∧
    (is_buffer_type (value_type c) = true → str_owned (objs h1) (buf c)) ∧
    NoDup (value_footprint c ++ [fresh_addr (objs h)]) ∧
    (∀ a, a ∈ value_footprint c ++ [fresh_addr (objs h)] → objs h !! a = None) ∧
    (∀ a, a ∉ value_footprint c ++ [fresh_addr (objs h)] →
          objs h1 !! a = objs h !! a) ∧
    trace h1 = trace h ++ map EvNew (fresh_addr (objs h) :: value_footprint c) ∧
    oom h1 = (if needs_buffer v then tail (tail (oom h)) else tail (oom h)).
Proof.
  intros Src O0 O1.
  set (p := fresh_addr (objs h)).
  pose proof (fresh_addr_not_null (objs h)) as Pn.
  pose proof (fresh_addr_free (objs h)) as Pf. fold p in Pn, Pf.
  set (m1 := {| objs := <[p := PropValue zero_value]> (objs h);
                oom := tail (oom h); trace := trace h ++ [EvNew p] |}).
  assert (L1 : live_value (objs m1) p zero_value).
  { split; [done|]. simpl. by rewrite lookup_insert_eq. }
  rewrite allocVehicleProp_record_granted by done. fold p m1. unfold bind.
  destruct (needs_buffer v) eqn:Nb.
  - pose proof Nb as Nb'. apply needs_buffer_true in Nb' as [T Lpos].
    destruct (Src eq_refl) as [[Ns Ls] Len].
    assert (Sp : data (buf v) ≠ p) by (intros E; rewrite E in Ls; congruence).
    assert (S1 : live_bytes (objs m1) (data (buf v)) bs).
    { split; [done|]. simpl. by rewrite lookup_insert_ne. }
    rewrite (copy_payload_buffer _ _ _ _ _ L1 T Lpos S1 Len)
      by (simpl; rewrite nth_tail; auto).
    simpl. set (q := fresh_addr (objs m1)).
    assert (Qn : q ≠ NULL) by apply fresh_addr_not_null.
    assert (Qp : q ≠ p) by (by apply (fresh_addr_ne _ _ (PropValue zero_value)), L1).
    assert (Qf : objs h !! q = None).
    { pose proof (fresh_addr_free (objs m1)) as F. fold q in F. simpl in F.
      by rewrite lookup_insert_ne in F. }
    assert (F : value_footprint (set_data v q) = [q]).
    { unfold value_footprint. simpl. rewrite T. by apply str_footprint_live. }
    eexists (set_data v q), _. split; [reflexivity|]. rewrite F. simpl.
    split; [|split; [|split; [|split; [|split; [|split]]]]].
    + split; [done|]. by rewrite lookup_insert_ne, lookup_insert_eq.
    + intros _. right. split; [done|]. exists bs. split; [|done].
      split; [done|]. by rewrite lookup_insert_eq.
    + apply NoDup_cons. split; [|apply NoDup_singleton].
      by intros ->%list_elem_of_singleton.
    + intros a [->|[->|I]%elem_of_cons]%elem_of_cons; [done|done|].
      by apply elem_of_nil in I.
    + intros a I. apply not_elem_of_cons in I as [Aq I].
      apply not_elem_of_cons in I as [Ap _].
      by rewrite !lookup_insert_ne.
    + by rewrite <- app_assoc.
    + done.
  - assert (E : ∃ c, copy_payload p v m1
                       = Done NO_ERROR (set_objs (<[p := PropValue c]> (objs m1)) m1) ∧
                     value_footprint c = [] ∧
                     (is_buffer_type (value_type c) = true → data (buf c) = NULL)).
    { destruct (is_buffer_type (value_type v)) eqn:T.
      - exists (set_data v NULL). split; [|split; [|done]].
        + apply (copy_payload_empty _ _ _ _ L1 T).
          unfold needs_buffer in Nb. rewrite T in Nb. simpl in Nb.
          by apply Z.ltb_ge.
        + unfold value_footprint. simpl. by rewrite T.
      - exists v. split; [|split].
        + apply (copy_payload_scalar _ _ _ _ L1 T).
        + unfold value_footprint. by rewrite T.
        + congruence. }
    destruct E as (c & -> & F & Cn). simpl.
    eexists c, _. split; [reflexivity|]. rewrite F. simpl.
    split; [|split; [|split; [|split; [|split; [|split]]]]].
    + split; [done|]. by rewrite lookup_insert_eq.
    + intros T. left. by apply Cn.
    + apply NoDup_singleton.
    + by intros a ->%list_elem_of_singleton.
    + intros a I. apply not_elem_of_cons in I as [Ap _].
      by rewrite !lookup_insert_ne.
    + done.
    + done.
Qed.

(** X6.  Allocating a copy and then releasing it, buffer first and record
    second, leaves exactly the objects that were live before: what the call
    allocated is deleted in the reverse order, and nothing else changes. *)
Theorem allocVehicleProp_then_release `{Build} (v : vehicle_prop_value_t)
    (bs : list byte) (h : mem) :
  (needs_buffer v = true →
   live_bytes (objs h) (data (buf v)) bs ∧ length bs = Z.to_nat (len (buf v))) →
  nth 0 (oom h) false = false →
  (needs_buffer v = true → nth 1 (oom h) false = false) →
  ∃ p h1 h2 ev,
    VehiclePropValueUtil.allocVehicleProp v h
      = Done (VehiclePropValueUtil.RetPtr p) h1 ∧
    release_value p h1 = Done tt h2 ∧
    objs h2 = objs h ∧
    trace h2 = trace h ++ ev ∧
    news ev ≠ [] ∧
    deletes ev = rev (news ev).
Proof.
  intros Src O0 O1.
  destruct (allocVehicleProp_granted v bs h Src O0 O1)
    as (c & h1 & E & L & Own & ND & Fresh & Frame & Tr & _).
  set (p := fresh_addr (objs h)) in *.
  assert (Np : p ∉ value_footprint c).
  { apply NoDup_app in ND as (_ & Disj & _). intros I.
    apply (Disj _ I), list_elem_of_here. }
  assert (R : release_value p h1
              = Done tt {| objs := remove_all (value_footprint c ++ [p]) (objs h1);
                           oom := oom h1;
                           trace := trace h1 ++ map EvDelete (value_footprint c ++ [p]) |}).
  { unfold release_value, bind. rewrite (deleteMembers_owned p c) by done.
    unfold delete_value.
    rewrite (delete_kind_live _ _ (PropValue c));
      [|apply L|simpl; rewrite lookup_remove_all, bool_decide_eq_false_2 by done; apply L|done].
    simpl. rewrite remove_all_app, map_app. simpl. by rewrite <- app_assoc. }
  eexists p, h1, _, _. split; [exact E|]. split; [exact R|]. simpl.
  split; [|split; [|split]].
  - apply map_eq. intros a. rewrite lookup_remove_all.
    case_bool_decide as I; [symmetry; by apply Fresh|by apply Frame].
  - rewrite Tr, <- app_assoc. reflexivity.
  - rewrite news_app, news_map_EvNew. discriminate.
  - rewrite news_app, deletes_app, news_map_EvNew, news_map_EvDelete,
      deletes_map_EvNew, deletes_map_EvDelete, app_nil_r. simpl.
    by rewrite value_footprint_rev.
Qed.

Lemma allocVehicleProp_then_release_witness :
  ∃ p h1 h2 ev,
    VehiclePropValueUtil.allocVehicleProp (H := shipped) abc_source store_abc
      = Done (VehiclePropValueUtil.RetPtr p) h1 ∧
    release_value (H := shipped) p h1 = Done tt h2 ∧
    objs h2 = objs store_abc ∧
    trace h2 = trace store_abc ++ ev ∧
    news ev ≠ [] ∧
    deletes ev = rev (news ev).
Proof.
  apply (allocVehicleProp_then_release (H := shipped) abc_source [x41; x42; x43]
           store_abc).
  - intros _. split; [split; [discriminate | reflexivity] | reflexivity].
  - reflexivity.
  - reflexivity.
Defined.

(** Into any live destination, a granted copy leaves an owned record: its
    buffer, if the source's kind and length ask for one, is a new allocation
    that follows the data model, and every object other than the destination
    is as before. *)
Lemma copy_payload_granted `{Build} (dest : Z) (d0 src : vehicle_prop_value_t)
    (bs : list byte) (m : mem) :
  live_value (objs m) dest d0 →
  (needs_buffer src = true →
   live_bytes (objs m) (data (buf src)) bs ∧ length bs = Z.to_nat (len (buf src))) →
  (needs_buffer src = true → nth 0 (oom m) false = false) →
  ∃ c m1,
    copy_payload dest src m = Done NO_ERROR m1 ∧
    live_value (objs m1) dest c ∧
    (is_buffer_type (value_type c) = true → str_owned (objs m1) (buf c)) ∧
    (∀ a, a ∈ value_footprint c → objs m !! a = None) ∧
    (∀ a, a ∉ value_footprint c → a ≠ dest → objs m1 !! a = objs m !! a) ∧
    trace m1 = trace m ++ map EvNew (value_footprint c).
Proof.
  intros L Src O.
  destruct (needs_buffer src) eqn:Nb.
  - pose proof Nb as Nb'. apply needs_buffer_true in Nb' as [T Lpos].
    destruct (Src eq_refl) as [S Len].
    rewrite (copy_payload_buffer _ _ _ _ _ L T Lpos S Len) by auto.
    set (q := fresh_addr (objs m)).
    assert (Qn : q ≠ NULL) by apply fresh_addr_not_null.
    assert (Qd : q ≠ dest) by (by apply (fresh_addr_ne _ _ (PropValue d0)), L).
    assert (F : value_footprint (set_data src q) = [q]).
    { unfold value_footprint. simpl. rewrite T. by apply str_footprint_live. }
    eexists (set_data src q), _. split; [reflexivity|]. rewrite F. simpl.
    split; [|split; [|split; [|split]]].
    + split; [apply L|]. by rewrite lookup_insert_ne, lookup_insert_eq.
    + intros _. right. split; [done|]. exists bs. split; [|done].
      split; [done|]. by rewrite lookup_insert_eq.
    + intros a ->%list_elem_of_singleton. apply fresh_addr_free.
    + intros a I Ad. apply not_elem_of_cons in I as [Aq _].
      by rewrite !lookup_insert_ne.
    + done.
  - assert (E : ∃ c, copy_payload dest src m
                       = Done NO_ERROR (set_objs (<[dest := PropValue c]> (objs m)) m) ∧
                     value_footprint c = [] ∧
                     (is_buffer_type (value_type c) = true → data (buf c) = NULL)).
    { destruct (is_buffer_type (value_type src)) eqn:T.
      - exists (set_data src NULL). split; [|split; [|done]].
        + apply (copy_payload_empty _ _ _ _ L T).
          unfold needs_buffer in Nb. rewrite T in Nb. simpl in Nb.
          by apply Z.ltb_ge.
        + unfold value_footprint. simpl. by rewrite T.
      - exists src. split; [|split].
        + apply (copy_payload_scalar _ _ _ _ L T).
        + unfold value_footprint. by rewrite T.
        + congruence. }
    destruct E as (c & -> & F & Cn).
    eexists c, _. split; [reflexivity|]. rewrite F. simpl.
    split; [|split; [|split; [|split]]].
    + split; [apply L|]. by rewrite lookup_insert_eq.
    + intros T. left. by apply Cn.
    + intros a I. by apply elem_of_nil in I.
    + intros a _ Ad. by rewrite lookup_insert_ne.
    + by rewrite app_nil_r.
Qed.

(** X8.  A scope that declares a [ScopedVehiclePropValue], copies a value
    into it and returns the status leaves no allocation behind: whatever the
    copy allocated is deleted at the exit, and every object other than the
    scoped value itself is as it was before the scope. *)
Theorem ScopedVehiclePropValue_copy_released `{Build} (this : Z)
    (junk src : vehicle_prop_value_t) (bs : list byte) (h : mem) :
  live_value (objs h) this junk →
  (needs_buffer src = true →
   live_bytes (objs h) (data (buf src)) bs ∧ length bs = Z.to_nat (len (buf src))) →
  (needs_buffer src = true → nth 0 (oom h) false = false) →
  ∃ h' ev,
    ScopedVehiclePropValue.scope this
      (fun t => VehiclePropValueUtil.copyVehicleProp t src false) h
      = Done NO_ERROR h' ∧
    trace h' = trace h ++ ev ∧
    deletes ev = news ev ∧
    (∀ p, p ≠ this → objs h' !! p = objs h !! p) ∧
    is_Some (objs h' !! this).
Proof.
  intros [N L] Src O.
  set (h0 := set_objs (<[this := PropValue zero_value]> (objs h)) h).
  assert (L0 : live_value (objs h0) this zero_value).
  { split; [done|]. simpl. by rewrite lookup_insert_eq. }
  assert (Ts : this ≠ data (buf src) ∨ needs_buffer src = false).
  { destruct (needs_buffer src) eqn:Nb; [left|by right].
    destruct (Src eq_refl) as [[_ Ls] _]. intros E. rewrite <- E, L in Ls. discriminate. }
  assert (Src0 : needs_buffer src = true →
                 live_bytes (objs h0) (data (buf src)) bs ∧
                 length bs = Z.to_nat (len (buf src))).
  { intros Nb. destruct (Src Nb) as [[Ns Ls] Len]. split; [|done]. split; [done|].
    simpl. rewrite lookup_insert_ne; [done|]. destruct Ts as [?|?]; [done|congruence]. }
  destruct (copy_payload_granted this zero_value src bs h0 L0 Src0 O)
    as (c & m1 & E & L1 & Own & Fresh & Frame & Tr).
  assert (B : VehiclePropValueUtil.copyVehicleProp this src false h0 = Done NO_ERROR m1).
  { rewrite (copyVehicleProp_after_release _ zero_value); [done|done|].
    intros Q. discriminate Q. }
  assert (Tf : this ∉ value_footprint c).
  { intros I. apply Fresh in I. destruct L0 as [_ L0]. congruence. }
  unfold ScopedVehiclePropValue.scope, ScopedVehiclePropValue.ctor,
    ScopedVehiclePropValue.dtor, bind.
  rewrite (store_value_live _ _ _ _ N L). fold h0. rewrite B.
  rewrite (deleteMembers_owned this c) by done.
  eexists _, _. split; [reflexivity|]. simpl. split; [|split; [|split]].
  - rewrite Tr. simpl. rewrite <- app_assoc. reflexivity.
  - by rewrite news_app, deletes_app, news_map_EvNew, news_map_EvDelete,
      deletes_map_EvNew, deletes_map_EvDelete, app_nil_r.
  - intros p Pt. rewrite lookup_remove_all. case_bool_decide as I.
    + apply Fresh in I. simpl in I. by rewrite lookup_insert_ne in I.
    + rewrite Frame by done. simpl. by rewrite lookup_insert_ne.
  - rewrite lookup_remove_all, bool_decide_eq_false_2 by done.
    destruct L1 as [_ L1]. eauto.
Qed.

Lemma ScopedVehiclePropValue_copy_released_witness :
  ∃ h' ev,
    ScopedVehiclePropValue.scope (H := shipped) 9
      (fun t => VehiclePropValueUtil.copyVehicleProp (H := shipped) t abc_source false)
      store_float = Done NO_ERROR h' ∧
    trace h' = trace store_float ++ ev ∧
    deletes ev = news ev ∧
    (∀ p, p ≠ 9 → objs h' !! p = objs store_float !! p) ∧
    is_Some (objs h' !! 9).
Proof.
  apply (ScopedVehiclePropValue_copy_released (H := shipped) 9 float_dest abc_source
           [x41; x42; x43] store_float).
  - split; [discriminate | reflexivity].
  - intros _. split; [split; [discriminate | reflexivity] | reflexivity].
  - reflexivity.
Defined.


(** ** Entries an owning container cannot take *)

Lemma delete_each_app `{Build} (l1 l2 : list Z) (h : mem) :
  VehiclePropValueListHolder.delete_each (l1 ++ l2) h
    = (VehiclePropValueListHolder.delete_each l1 ;;
       VehiclePropValueListHolder.delete_each l2) h.
Proof.
  revert h. induction l1 as [|e l1 IH]; intros h; [done|].
  simpl. unfold bind.
  destruct (VehiclePropValueUtil.deleteMembers e h) as [? m1| |]; [|done|done].
  destruct (delete_value e m1) as [? m2| |]; [|done|done].
  apply IH.
Qed.

Lemma owned_values_not_null `{Build} (o : gmap Z block) (l fp : list Z) :
  owned_values o l fp → NULL ∉ fp.
Proof.
  induction 1 as [|e v rest fp [N L] Ob _ IH]; [apply not_elem_of_nil|].
  intros I. apply elem_of_app in I as [I|I].
  - unfold value_footprint, str_footprint in I.
    destruct (is_buffer_type (value_type v)); [|by apply elem_of_nil in I].
    destruct (data (buf v) =? NULL) eqn:E; [by apply elem_of_nil in I|].
    apply list_elem_of_singleton in I. rewrite <- I in E. discriminate.
  - apply elem_of_cons in I as [I|I]; [by symmetry in I|by apply IH].
Qed.

(** X10.  A null entry in the list of a [VehiclePropValueListHolder] is
    skipped by the owning loop, wherever it stands: both [deleteMembers] and
    [delete] do nothing on it.  The owning destructor of a
    [VehiclePropertiesHolder] whose first entry is null is undefined
    behaviour, since its helper dereferences the entry untested. *)
Theorem owning_loops_and_null_entries `{Build} (l1 l2 : list Z) (h : mem) :
  VehiclePropValueListHolder.delete_each (l1 ++ NULL :: l2) h
    = VehiclePropValueListHolder.delete_each (l1 ++ l2) h ∧
  VehiclePropertiesHolder.dtor
    (populate (NULL :: l2) (VehiclePropertiesHolder.ctor true)) h = Undefined.
Proof.
  split.
  - rewrite !delete_each_app. unfold bind.
    by destruct (VehiclePropValueListHolder.delete_each l1 h).
  - unfold VehiclePropertiesHolder.dtor. by rewrite populate_flag, populate_mList.
Qed.

(** X11.  The owning loop of a [VehiclePropValueListHolder] is undefined
    behaviour as soon as an entry repeats an address that the entries before
    it made the loop delete (the same record listed twice), and as soon as a
    further STRING or BYTES record points to a buffer that an earlier entry
    already released (two records sharing one buffer). *)
Theorem owning_list_repeated_release `{Build} (l1 fp : list Z) (h : mem) :
  owned_values (objs h) l1 fp →
  NoDup fp →
  (∀ e l2, e ∈ fp →
     VehiclePropValueListHolder.delete_each (l1 ++ e :: l2) h = Undefined) ∧
  (∀ e v l2,
     live_value (objs h) e v → e ∉ fp →
     is_buffer_type (value_type v) = true →
     data (buf v) ∈ fp →
     VehiclePropValueListHolder.delete_each (l1 ++ e :: l2) h = Undefined).
Proof.
  intros Own ND. pose proof (owned_values_not_null _ _ _ Own) as Nn.
  split.
  - intros e l2 I. rewrite delete_each_app. unfold bind.
    rewrite (delete_each_owned l1 fp) by done. simpl. unfold bind.
    assert (Ne : e ≠ NULL) by (by intros ->).
    unfold VehiclePropValueUtil.deleteMembers, bind, load_value, bind, deref.
    rewrite (eqb_NULL_false _ Ne). simpl.
    by rewrite lookup_remove_all, bool_decide_eq_true_2.
  - intros e v l2 [Ne L] Nf T I. rewrite delete_each_app. unfold bind.
    rewrite (delete_each_owned l1 fp) by done. simpl. unfold bind.
    assert (Nd : data (buf v) ≠ NULL) by (by intros E; rewrite E in I).
    rewrite (deleteMembers_of_buffer e v);
      [|split; [done|simpl; by rewrite lookup_remove_all, bool_decide_eq_false_2]|done].
    unfold delete_array. rewrite delete_kind_dangling; [done|done|].
    simpl. by rewrite lookup_remove_all, bool_decide_eq_true_2.
Qed.

Lemma owning_list_repeated_release_witness :
  (∀ e l2, e ∈ [8; 9] →
     VehiclePropValueListHolder.delete_each (H := shipped) ([9] ++ e :: l2) store_lists
       = Undefined) ∧
  (∀ e v l2,
     live_value (objs store_lists) e v → e ∉ [8; 9] →
     is_buffer_type (H := shipped) (value_type v) = true →
     data (buf v) ∈ [8; 9] →
     VehiclePropValueListHolder.delete_each (H := shipped) ([9] ++ e :: l2) store_lists
       = Undefined).
Proof.
  apply (owning_list_repeated_release (H := shipped) [9] [8; 9] store_lists).
  - apply (owned_values_cons (H := shipped) _ 9 bytes_dest [] []).
    + split; [discriminate | reflexivity].
    + intros _. right. split; [reflexivity|]. exists [x01; x02].
      split; [split; [discriminate | reflexivity] | reflexivity].
    + constructor.
  - apply (bool_decide_unpack _). vm_compute. exact I.
Defined.

(** The record at 9 listed twice: the second round dereferences a deleted
    record. *)
Lemma owning_list_duplicate_sample :
  VehiclePropValueListHolder.delete_each (H := shipped) [9; 9] store_lists = Undefined.
Proof. vm_compute. reflexivity. Qed.

(** X12.  [VehiclePropertiesUtil::deleteMembers] deletes the configuration
    string only when its length is positive: for a record whose string
    pointer is a live array but whose length is zero or negative it changes
    nothing, and the owning destructor of a [VehiclePropertiesHolder] then
    deletes the record and leaves the array allocated. *)
Theorem config_string_without_length_is_kept (e : Z) (c : vehicle_prop_config_t)
    (bs : list byte) (h : mem) :
  live_config (objs h) e c →
  live_bytes (objs h) (data (config_string c)) bs →
  len (config_string c) <= 0 →
  VehiclePropertiesUtil.deleteMembers e h = Done tt h ∧
  ∃ h',
    VehiclePropertiesHolder.dtor (populate [e] (VehiclePropertiesHolder.ctor true)) h
      = Done [] h' ∧
    objs h' = delete e (objs h) ∧
    live_bytes (objs h') (data (config_string c)) bs ∧
    deletes (trace h') = deletes (trace h) ++ [e].
Proof.
  intros [N L] [Nb Lb] Len.
  assert (D : VehiclePropertiesUtil.deleteMembers e h = Done tt h).
  { unfold VehiclePropertiesUtil.deleteMembers, bind.
    rewrite (load_config_live _ _ _ N L).
    replace (0 <? len (config_string c)) with false by (symmetry; by apply Z.ltb_ge).
    by rewrite andb_false_r. }
  assert (Ne : data (config_string c) ≠ e).
  { intros E. rewrite E, L in Lb. discriminate. }
  split; [done|].
  unfold VehiclePropertiesHolder.dtor. rewrite populate_flag, populate_mList.
  simpl. unfold bind. rewrite D. unfold delete_config.
  rewrite (delete_kind_live _ _ (PropConfig c)) by done.
  eexists. split; [reflexivity|]. simpl. split; [done|]. split.
  - split; [done|]. by rewrite lookup_delete_ne.
  - by rewrite deletes_app.
Qed.

Lemma config_string_without_length_is_kept_witness :
  VehiclePropertiesUtil.deleteMembers 30 store_empty_string
    = Done tt store_empty_string ∧
  ∃ h',
    VehiclePropertiesHolder.dtor (populate [30] (VehiclePropertiesHolder.ctor true))
      store_empty_string = Done [] h' ∧
    objs h' = delete 30 (objs store_empty_string) ∧
    live_bytes (objs h') (data (config_string config_empty_string)) [] ∧
    deletes (trace h') = deletes (trace store_empty_string) ++ [30].
Proof.
  apply (config_string_without_length_is_kept 30 config_empty_string []
           store_empty_string).
  - split; [discriminate | reflexivity].
  - split; [discriminate | reflexivity].
  - simpl. lia.
Defined.

(** ** The whole life of an owning list *)

Section Fill.
Context `{Build}.

Lemma owned_values_insert_fresh (o : gmap Z block) (l fp : list Z) (a : Z) (b : block) :
  owned_values o l fp → o !! a = None → owned_values (<[a := b]> o) l fp.
Proof.
  induction 1 as [|e v rest fp [N L] Own _ IH]; intros Fa; [constructor|].
  constructor; [| |by apply IH].
  - split; [done|]. rewrite lookup_insert_ne; [done|]. intros ->. congruence.
  - intros T. destruct (Own T) as [?|(P & bs & [Nb Lb] & Len)]; [by left|right].
    split; [done|]. exists bs. split; [|done]. split; [done|].
    rewrite lookup_insert_ne; [done|]. intros ->. congruence.
Qed.

Lemma owning_dtor_exact (lst : Z) (l fp : list Z) (h : mem) :
  lst ≠ NULL →
  objs h !! lst = Some (ValueList l) →
  owned_values (objs h) l fp →
  NoDup (fp ++ [lst]) →
  VehiclePropValueListHolder.dtor (VehiclePropValueListHolder.ctor lst true) h
    = Done tt {| objs := remove_all (fp ++ [lst]) (objs h); oom := oom h;
                 trace := trace h ++ map EvDelete (fp ++ [lst]) |}.
Proof.
  intros N L Own ND. apply NoDup_app in ND as (ND & Disj & _).
  unfold VehiclePropValueListHolder.dtor. simpl.
  rewrite (eqb_NULL_false _ N). simpl. unfold bind.
  rewrite (load_list_live _ _ _ N L), (delete_each_owned l fp) by done.
  unfold delete_list.
  rewrite (delete_kind_live _ _ (ValueList l)); [|done| |done].
  - simpl. rewrite remove_all_app, map_app. simpl. by rewrite <- app_assoc.
  - simpl. rewrite lookup_remove_all, bool_decide_eq_false_2; [done|].
    intros I. apply (Disj _ I), list_elem_of_here.
Qed.

Lemma alloc_each_granted (srcs : list vehicle_prop_value_t) :
  ∀ h, oom h = [] → Forall (valid_source (objs h)) srcs →
  ∃ ps fp al h1,
    alloc_each srcs h = Done ps h1 ∧
    owned_values (objs h1) ps fp ∧
    NoDup fp ∧
    (∀ a, a ∈ fp → objs h !! a = None) ∧
    (∀ a, a ∉ fp → objs h1 !! a = objs h !! a) ∧
    trace h1 = trace h ++ map EvNew al ∧
    al ≡ₚ fp ∧
    oom h1 = [] ∧
    length ps = length srcs.
Proof.
  induction srcs as [|v rest IH]; intros h Oh Valid.
  - exists [], [], [], h. split; [done|]. split; [constructor|].
    split; [constructor|]. split; [by intros a I; apply elem_of_nil in I|].
    split; [done|]. split; [simpl; by rewrite app_nil_r|]. done.
  - apply Forall_cons in Valid as [Vv Vr].
    assert (Src : ∃ bs, needs_buffer v = true →
                        live_bytes (objs h) (data (buf v)) bs ∧
                        length bs = Z.to_nat (len (buf v))).
    { destruct (needs_buffer v) eqn:Nb.
      - destruct (Vv Nb) as (bs & ?). by exists bs.
      - exists []. intros Q. discriminate Q. }
    destruct Src as [bs Src].
    destruct (allocVehicleProp_granted v bs h Src)
      as (c & h' & E & L & Own & ND & Fresh & Frame & Tr & Oo);
      [by rewrite Oh|by rewrite Oh|].
    set (p := fresh_addr (objs h)) in *.
    assert (Oh' : oom h' = []).
    { rewrite Oo, Oh. by destruct (needs_buffer v). }
    assert (Own1 : owned_values (objs h') [p] (value_footprint c ++ [p])).
    { constructor; [done|done|constructor]. }
    pose proof (owned_values_live _ _ _ Own1) as Live1.
    assert (Vr' : Forall (valid_source (objs h')) rest).
    { eapply Forall_impl; [exact Vr|]. intros w Vw Nb.
      destruct (Vw Nb) as (bw & [Nw Lw] & Len). exists bw. split; [|done].
      split; [done|]. rewrite Frame; [done|]. intros I. apply Fresh in I. congruence. }
    destruct (IH h' Oh' Vr')
      as (ps & fpr & alr & h1 & Er & Ownr & NDr & Freshr & Framer & Trr & Pr & Or & Lr).
    assert (Disj : ∀ a, a ∈ value_footprint c ++ [p] → a ∉ fpr).
    { intros a I J. apply Freshr in J.
      eapply Forall_forall in Live1; [|exact I]. destruct Live1 as [x Lx]. congruence. }
    exists (p :: ps), (value_footprint c ++ p :: fpr),
      ((p :: value_footprint c) ++ alr), h1.
    split; [|split; [|split; [|split; [|split; [|split; [|split; [|split]]]]]]].
    + simpl. unfold bind. rewrite E, Er. reflexivity.
    + constructor; [| |done].
      * destruct L as [Np L]. split; [done|]. rewrite Framer; [done|].
        apply Disj, elem_of_app. right. apply list_elem_of_here.
      * intros T. destruct (Own T) as [?|(P & bw & [Nb Lb] & Len)]; [by left|right].
        split; [done|]. exists bw. split; [|done]. split; [done|].
        rewrite Framer; [done|]. apply Disj, elem_of_app. left.
        unfold value_footprint. rewrite T, str_footprint_live by done.
        apply list_elem_of_here.
    + apply NoDup_app in ND as (NDv & Dv & _).
      apply NoDup_app. split; [done|]. split.
      * intros x Ix [->|J]%elem_of_cons.
        -- apply (Dv _ Ix), list_elem_of_here.
        -- apply (Disj x); [|done]. apply elem_of_app. by left.
      * apply NoDup_cons. split; [|done].
        apply Disj, elem_of_app. right. apply list_elem_of_here.
    + intros a I.
      assert (I' : a ∈ value_footprint c ++ [p] ∨ a ∈ fpr).
      { apply elem_of_app in I as [I|[->|I]%elem_of_cons].
        - left. apply elem_of_app. by left.
        - left. apply elem_of_app. right. apply list_elem_of_here.
        - by right. }
      destruct I' as [I'|I']; [by apply Fresh|].
      rewrite <- Frame; [by apply Freshr|]. intros J. by apply (Disj a).
    + intros a I.
      assert (Na : (a ∉ value_footprint c ++ [p]) ∧ (a ∉ fpr)).
      { split; intros J; apply I.
        - apply elem_of_app in J as [J|J].
          + apply elem_of_app. by left.
          + apply list_elem_of_singleton in J as ->.
            apply elem_of_app. right. apply list_elem_of_here.
        - apply elem_of_app. right. by apply list_elem_of_further. }
      destruct Na as [Na Nr]. rewrite Framer by done. by apply Frame.
    + rewrite Trr, Tr, map_app, <- app_assoc. reflexivity.
    + simpl. rewrite Pr. apply Permutation_middle.
    + done.
    + simpl. by rewrite Lr.
Qed.

Lemma fill_events (al d : list Z) (lst : Z) :
  news (map EvNew al ++ EvNew lst :: map EvDelete d) = al ++ [lst] ∧
  deletes (map EvNew al ++ EvNew lst :: map EvDelete d) = d.
Proof.
  change (EvNew lst :: map EvDelete d) with (map EvNew [lst] ++ map EvDelete d).
  by rewrite !news_app, !deletes_app, !news_map_EvNew, !deletes_map_EvNew,
    news_map_EvDelete, deletes_map_EvDelete, app_nil_r.
Qed.

End Fill.

(** X13.  When every allocation request is granted, filling a list with
    deep copies of any sequence of values (each with a live buffer of its
    length where its kind has one), handing the list to an owning
    [VehiclePropValueListHolder] and destroying the holder leaves exactly
    the objects that were live before: everything allocated on the way is
    deleted, each allocation once. *)
Theorem fill_and_destroy_restores `{Build} (srcs : list vehicle_prop_value_t)
    (h : mem) :
  oom h = [] →
  Forall (valid_source (objs h)) srcs →
  ∃ h' ev,
    fill_and_destroy srcs h = Done tt h' ∧
    objs h' = objs h ∧
    trace h' = trace h ++ ev ∧
    news ev ≡ₚ deletes ev ∧
    NoDup (deletes ev) ∧
    (length srcs < length (news ev))%nat.
Proof.
  intros Oh Valid.
  destruct (alloc_each_granted srcs h Oh Valid)
    as (ps & fp & al & h1 & E & Own & ND & Fresh & Frame & Tr & Pr & O1 & Lp).
  set (lst := fresh_addr (objs h1)).
  pose proof (fresh_addr_not_null (objs h1)) as Ln.
  pose proof (fresh_addr_free (objs h1)) as Lf. fold lst in Ln, Lf.
  pose proof (owned_values_live _ _ _ Own) as Live.
  assert (Lfp : lst ∉ fp).
  { intros I. eapply Forall_forall in Live; [|exact I].
    destruct Live as [x Lx]. congruence. }
  assert (NDl : NoDup (fp ++ [lst])).
  { apply NoDup_app. split; [done|]. split; [|apply NoDup_singleton].
    by intros x Ix ->%list_elem_of_singleton. }
  unfold fill_and_destroy, bind. rewrite E.
  rewrite new_ok by (by rewrite O1). fold lst.
  rewrite (owning_dtor_exact lst ps fp);
    [|done|simpl; by rewrite lookup_insert_eq|simpl; by apply owned_values_insert_fresh|done].
  eexists _, (map EvNew al ++ [EvNew lst] ++ map EvDelete (fp ++ [lst])).
  split; [reflexivity|]. simpl. split; [|split; [|split; [|split]]].
  - apply map_eq. intros a. rewrite lookup_remove_all. case_bool_decide as I.
    + apply elem_of_app in I as [I| ->%list_elem_of_singleton].
      * symmetry. by apply Fresh.
      * rewrite <- Frame by done. by rewrite Lf.
    + apply not_elem_of_app in I as [I J].
      rewrite lookup_insert_ne by (intros ->; apply J, list_elem_of_here).
      by apply Frame.
  - rewrite Tr, <- !app_assoc. reflexivity.
  - destruct (fill_events al (fp ++ [lst]) lst) as [-> ->]. by rewrite Pr.
  - by destruct (fill_events al (fp ++ [lst]) lst) as [_ ->].
  - destruct (fill_events al (fp ++ [lst]) lst) as [-> _].
    rewrite length_app. simpl.
    assert (length ps ≤ length al)%nat; [|lia].
    rewrite Pr. clear -Own. induction Own as [|e v rest fp _ _ _ IH]; [done|].
    rewrite length_app. simpl. lia.
Qed.

Lemma fill_and_destroy_restores_witness :
  ∃ h' ev,
    fill_and_destroy (H := shipped) [abc_source; float_dest; empty_source] store_abc
      = Done tt h' ∧
    objs h' = objs store_abc ∧
    trace h' = trace store_abc ++ ev ∧
    news ev ≡ₚ deletes ev ∧
    NoDup (deletes ev) ∧
    (length [abc_source; float_dest; empty_source] < length (news ev))%nat.
Proof.
  apply (fill_and_destroy_restores (H := shipped)
           [abc_source; float_dest; empty_source] store_abc).
  - reflexivity.
  - repeat constructor.
    + intros _. exists [x41; x42; x43].
      split; [split; [discriminate | reflexivity] | reflexivity].
    + intros Q. discriminate Q.
    + intros Q. discriminate Q.
Defined.

(** The same run, evaluated: three records (10, 12, 13), one buffer (11)
    and the list object (14) are allocated and deleted. *)
Lemma fill_and_destroy_sample :
  ∃ h', fill_and_destroy (H := shipped) [abc_source; float_dest; empty_source]
          store_abc = Done tt h' ∧
        objs h' = objs store_abc ∧
        news (trace h') = [10; 11; 12; 13; 14] ∧
        deletes (trace h') = [11; 10; 12; 13; 14].
Proof. eexists. vm_compute. repeat split. Qed.
